(** * w_handle.c: the WAD file handle, embedded and verified

    The handle of [src/w_handle.c] binds one of two I/O backends to an open
    resource: the C library's buffered [FILE] ("Standard") or an
    [SDL_RWops] reader-seeker ("SDL").  The embedding below follows the
    [HAVE_WHANDLE] + [HAVE_SDL] configuration of the file.

    - C integers are [Z] with every conversion of the source written out.
    - The C library and SDL are outside the file: they are the fields of
      the class [Platform], total functions on an opaque [world].
    - The heap that [calloc]/[free] manage is a [gmap] from locations to
      cells; a handle is a cell, and so is every cached error string.
    - A function of the source is a computation in the monad [M]: state
      passing over heap and world, with two ways of not returning
      ([Fatal] for [I_Error], [Undefined] for undefined behaviour). *)

From Stdlib Require Import ZArith Lia.
From stdpp Require Import gmap strings list.

Local Open Scope Z_scope.

(** ** C integer types *)

(** The three data models the program is built for differ in the widths of
    [long int] and [size_t]; [int] has 32 bits in all of them. *)
Inductive data_model := ILP32 | LLP64 | LP64.

Definition long_bits (d : data_model) : Z :=
  match d with LP64 => 64 | ILP32 | LLP64 => 32 end.

Definition size_t_bits (d : data_model) : Z :=
  match d with ILP32 => 32 | LLP64 | LP64 => 64 end.

Definition int_bits : Z := 32.

(** Conversion to an unsigned type of [w] bits: reduction modulo [2^w]. *)
Definition wrap_unsigned (w z : Z) : Z := z mod 2 ^ w.

(** Conversion to a signed type of [w] bits: two's complement wrap-around. *)
Definition wrap_signed (w z : Z) : Z := (z + 2 ^ (w - 1)) mod 2 ^ w - 2 ^ (w - 1).

Definition to_int (z : Z) : Z := wrap_signed int_bits z.
Definition to_long (d : data_model) (z : Z) : Z := wrap_signed (long_bits d) z.
Definition to_size_t (d : data_model) (z : Z) : Z := wrap_unsigned (size_t_bits d) z.

Definition INT_MAX : Z := 2 ^ (int_bits - 1) - 1.
Definition LONG_MIN (d : data_model) : Z := - 2 ^ (long_bits d - 1).
Definition LONG_MAX (d : data_model) : Z := 2 ^ (long_bits d - 1) - 1.

(** A value that [long int] represents. *)
Definition fits_long (d : data_model) (z : Z) : Prop := LONG_MIN d <= z <= LONG_MAX d.

(** [(int)c] for a [char c] holding the byte [b]. *)
Definition char_to_int (is_signed : bool) (b : Z) : Z :=
  if is_signed then wrap_signed 8 b else wrap_unsigned 8 b.

(** <stdio.h> *)
Definition EOF : Z := -1.
Definition SEEK_SET : Z := 0.
Definition SEEK_CUR : Z := 1.
Definition SEEK_END : Z := 2.

(** <SDL_rwops.h> *)
Definition RW_SEEK_SET : Z := 0.
Definition RW_SEEK_CUR : Z := 1.
Definition RW_SEEK_END : Z := 2.

(** ** The platform: C library and SDL *)

(** Every primitive takes the world and gives it back.  A read reports the
    bytes it stored at the destination, from its first byte on, beside the
    number of elements it returns; [fgets] reports whether it returned its
    argument (rather than NULL) and the bytes it stored. *)
Class Platform := {
  model : data_model;
  char_is_signed : bool;
  world : Type;
  FILE : Type;
  SDL_RWops : Type;
  fopen : string → string → world → option FILE * world;
  fclose : FILE → world → Z * world;
  fread : FILE → Z → Z → world → (list Z * Z) * world;
  fseek : FILE → Z → Z → world → Z * world;
  ftell : FILE → world → Z * world;
  fgetc : FILE → world → Z * world;
  fgets : FILE → Z → world → (bool * list Z) * world;
  ferror : FILE → world → Z;
  feof : FILE → world → Z;
  SDL_RWFromFile : string → string → world → option SDL_RWops * world;
  SDL_RWread : SDL_RWops → Z → Z → world → (list Z * Z) * world;
  SDL_RWseek : SDL_RWops → Z → Z → world → Z * world;
  SDL_RWtell : SDL_RWops → world → Z * world;
  SDL_RWsize : SDL_RWops → world → Z * world;
  SDL_RWclose : SDL_RWops → world → Z * world;
  SDL_GetError : world → string;
  M_FileError : FILE → world → string
}.

(** ** Handles, heap and the monad of the embedding *)

(** [fhandletype_t]: the two enumerators, and every other value that a
    caller can pass in the enumeration's integer type. *)
Inductive fhandletype_t :=
  | FILEHANDLE_STANDARD
  | FILEHANDLE_SDL
  | FILEHANDLE_other (v : Z).

(** Every entry point of a handle has one implementation per backend, so a
    function pointer is recorded as the backend that implements it. *)
Inductive backend := Standard | SDL.

Definition loc := positive.

(** How a call ends: it returns, it ends the process with a message, or
    its behaviour is undefined. *)
Inductive outcome (A : Type) :=
  | Done (a : A)
  | Fatal (msg : string)
  | Undefined.
Arguments Done {A} a.
Arguments Fatal {A} msg.
Arguments Undefined {A}.

Section Handle.
Context `{Platform}.

(** [void *file]. *)
Inductive resource :=
  | NullRes
  | StdRes (f : FILE)
  | RWRes (rw : SDL_RWops).

(** [filehandle_t]; a null function pointer and a null [lasterror] are
    [None]. *)
Record filehandle_t := {
  type : fhandletype_t;
  file : resource;
  read : option backend;
  seek : option backend;
  tell : option backend;
  size : option backend;
  getchar : option backend;
  getstring : option backend;
  close : option backend;
  error : option backend;
  eof : option backend;
  lasterror : option loc
}.

(** What [calloc] hands out: a handle record or an array of [char]. *)
Inductive cell :=
  | HandleCell (h : filehandle_t)
  | CharCell (bytes : list Z).

Record state := { mem : gmap loc cell; env : world }.

Definition M (A : Type) : Type := state → outcome (A * state).

Definition ret {A} (a : A) : M A := λ s, Done (a, s).

Definition bind {A B} (m : M A) (k : A → M B) : M B :=
  λ s, match m s with
       | Done (a, s') => k a s'
       | Fatal msg => Fatal msg
       | Undefined => Undefined
       end.

Definition undefined {A} : M A := λ _, Undefined.

(** Modelled from the spec: [I_Error] (declared in i_system.h) is the
    fatal-error facility, which ends the process and does not come back to
    its caller. *)
Definition I_Error {A} (msg : string) : M A := λ _, Fatal msg.

(** A primitive of the platform, run on the world of the state. *)
Definition prim {A} (f : world → A * world) : M A :=
  λ s, let '(a, w) := f (env s) in Done (a, {| mem := mem s; env := w |}).

(** A query of the platform that leaves the world as it is. *)
Definition query {A} (f : world → A) : M A := λ s, Done (f (env s), s).

#[global] Instance M_ret : MRet M := @ret.
#[global] Instance M_bind : MBind M := λ A B k m, bind m k.

(** *** Heap *)

(** [calloc] returns a block that is not live; running out of memory is
    not modelled (the source does not test for it either). *)
Definition calloc (c : cell) : M loc :=
  λ s, let l := fresh (dom (mem s)) in
       Done (l, {| mem := <[l := c]> (mem s); env := env s |}).

(** [free] of a block that is not live is undefined. *)
Definition free (l : loc) : M unit :=
  λ s, match mem s !! l with
       | Some _ => Done (tt, {| mem := delete l (mem s); env := env s |})
       | None => Undefined
       end.

(** The cast of [f] to a handle pointer, followed by a read of the record. *)
Definition load_handle (p : loc) : M filehandle_t :=
  λ s, match mem s !! p with
       | Some (HandleCell h) => Done (h, s)
       | _ => Undefined
       end.

Definition store_handle (p : loc) (h : filehandle_t) : M unit :=
  λ s, match mem s !! p with
       | Some (HandleCell _) =>
           Done (tt, {| mem := <[p := HandleCell h]> (mem s); env := env s |})
       | _ => Undefined
       end.

(** [strcpy(dst, src)] into a block: the characters and the terminator. *)
Definition c_bytes (t : string) : list Z :=
  (λ a, Z.of_nat (Ascii.nat_of_ascii a)) <$> String.list_ascii_of_string t.

Definition strlen (t : string) : Z := Z.of_nat (String.length t).

Definition strcpy (dst : loc) (src : string) : M unit :=
  λ s, match mem s !! dst with
       | Some (CharCell bytes) =>
           let img := c_bytes src ++ [0] in
           if decide (length img ≤ length bytes)%nat
           then Done (tt, {| mem := <[dst := CharCell (img ++ drop (length img) bytes)]> (mem s);
                             env := env s |})
           else Undefined
       | _ => Undefined
       end.

(** *** Caller buffers *)

(** A destination buffer is the list of its bytes; a primitive stores
    [data] from index 0 on, and a store outside the buffer is undefined. *)
Definition store_bytes (buf data : list Z) : M (list Z) :=
  if decide (length data ≤ length buf)%nat
  then ret (data ++ drop (length data) buf)
  else undefined.

(** [buf[i] = b]. *)
Definition store_byte (buf : list Z) (i b : Z) : M (list Z) :=
  if decide (0 <= i < Z.of_nat (length buf))
  then ret (<[Z.to_nat i := b]> buf)
  else undefined.

(** *** Casts of [handle->file] *)

Definition as_FILE (r : resource) : M FILE :=
  match r with StdRes f => ret f | _ => undefined end.

Definition as_RWops (r : resource) : M SDL_RWops :=
  match r with RWRes rw => ret rw | _ => undefined end.

Definition set_lasterror (h : filehandle_t) (e : option loc) : filehandle_t :=
  {| type := type h; file := file h;
     read := read h; seek := seek h; tell := tell h; size := size h;
     getchar := getchar h; getstring := getstring h;
     close := close h; error := error h; eof := eof h;
     lasterror := e |}.

(** ** The size helper *)

(** [File_StandardSizeImpl]: [cur] and [length] are [size_t], [ftell]
    returns [long int] and [fseek] takes one; the results of both [fseek]
    calls are dropped. *)
Definition File_StandardSizeImpl (f : FILE) : M Z :=
  p0 ← prim (ftell f);
  let cur := to_size_t model p0 in
  prim (fseek f 0 SEEK_END);;
  p1 ← prim (ftell f);
  let length := to_size_t model p1 in
  prim (fseek f (to_long model cur) SEEK_SET);;
  ret length.

(** ** Standard library file operations *)

Definition File_StandardRead (p : loc) (ptr : list Z) (sz count : Z) : M (Z * list Z) :=
  handle ← load_handle p;
  f ← as_FILE (file handle);
  '(data, n) ← prim (fread f sz count);
  ptr' ← store_bytes ptr data;
  ret (n, ptr').

Definition File_StandardSeek (p : loc) (offset origin : Z) : M Z :=
  handle ← load_handle p;
  f ← as_FILE (file handle);
  prim (fseek f offset origin).

Definition File_StandardTell (p : loc) : M Z :=
  handle ← load_handle p;
  f ← as_FILE (file handle);
  prim (ftell f).

Definition File_StandardSize (p : loc) : M Z :=
  handle ← load_handle p;
  f ← as_FILE (file handle);
  File_StandardSizeImpl f.

Definition File_StandardGetChar (p : loc) : M Z :=
  handle ← load_handle p;
  f ← as_FILE (file handle);
  prim (fgetc f).

(** The boolean of the result tells [str] from NULL; the list is the
    buffer after the call. *)
Definition File_StandardGetString (p : loc) (str : list Z) (num : Z) : M (bool * list Z) :=
  handle ← load_handle p;
  f ← as_FILE (file handle);
  '(ok, data) ← prim (fgets f num);
  str' ← store_bytes str data;
  ret (ok, str').

(** [File_StandardClose] is given [handle->file], not the handle. *)
Definition File_StandardClose (r : resource) : M Z :=
  f ← as_FILE r;
  prim (fclose f).

Definition File_StandardError (p : loc) : M string :=
  handle ← load_handle p;
  f ← as_FILE (file handle);
  query (M_FileError f).

Definition File_StandardEOF (p : loc) : M Z :=
  handle ← load_handle p;
  f ← as_FILE (file handle);
  query (feof f).

(** ** SDL_RWops file operations *)

Definition File_SDLSetError (p : loc) : M unit :=
  errorstring ← query SDL_GetError;
  handle ← load_handle p;
  match lasterror handle with Some old => free old | None => ret tt end;;
  l ← calloc (CharCell (replicate (Z.to_nat (strlen errorstring + 1)) 0));
  handle ← load_handle p;
  store_handle p (set_lasterror handle (Some l));;
  strcpy l errorstring.

Definition File_SDLRead (p : loc) (ptr : list Z) (sz count : Z) : M (Z * list Z) :=
  handle ← load_handle p;
  rw ← as_RWops (file handle);
  '(data, n) ← prim (SDL_RWread rw sz count);
  ptr' ← store_bytes ptr data;
  File_SDLSetError p;;
  ret (n, ptr').

(** The local [type] of [File_SDLSeek]: it starts as RW_SEEK_SET and the
    two tests on [origin] change it. *)
Definition seek_type (origin : Z) : Z :=
  if origin =? SEEK_CUR then RW_SEEK_CUR
  else if origin =? SEEK_END then RW_SEEK_END
  else RW_SEEK_SET.

Definition File_SDLSeek (p : loc) (offset origin : Z) : M Z :=
  handle ← load_handle p;
  rw ← as_RWops (file handle);
  r ← prim (SDL_RWseek rw offset (seek_type origin));
  let position := to_int r in
  File_SDLSetError p;;
  ret (if position =? -1 then -1 else 0).

Definition File_SDLTell (p : loc) : M Z :=
  handle ← load_handle p;
  rw ← as_RWops (file handle);
  r ← prim (SDL_RWtell rw);
  let position := to_long model r in
  File_SDLSetError p;;
  ret position.

Definition File_SDLSize (p : loc) : M Z :=
  handle ← load_handle p;
  rw ← as_RWops (file handle);
  r ← prim (SDL_RWsize rw);
  let sz := to_size_t model r in
  File_SDLSetError p;;
  ret sz.

(** [char c] is a buffer of one byte that starts out indeterminate: storing
    more than one byte into it, or reading it when nothing was stored, is
    undefined. *)
Definition File_SDLGetChar (p : loc) : M Z :=
  handle ← load_handle p;
  rw ← as_RWops (file handle);
  '(data, n) ← prim (SDL_RWread rw 1 1);
  if decide (1 < length data)%nat then undefined
  else if n =? 0 then
    File_SDLSetError p;;
    ret EOF
  else
    match data with
    | [c] => ret (char_to_int char_is_signed c)
    | _ => undefined
    end.

Definition File_SDLGetString (p : loc) (str : list Z) (num : Z) : M (bool * list Z) :=
  handle ← load_handle p;
  rw ← as_RWops (file handle);
  '(data, n) ← prim (SDL_RWread rw 1 (to_size_t model (num - 1)));
  str1 ← store_bytes str data;
  if n =? 0 then
    File_SDLSetError p;;
    ret (false, str1)
  else
    str2 ← store_byte str1 (num - 1) 0;
    ret (true, str2).

(** [File_SDLClose] is given [handle->file], not the handle. *)
Definition File_SDLClose (r : resource) : M Z :=
  rw ← as_RWops r;
  prim (SDL_RWclose rw).

(** The cached string, or NULL. *)
Definition File_SDLError (p : loc) : M (option loc) :=
  handle ← load_handle p;
  ret (lasterror handle).

Definition File_SDLEOF (p : loc) : M Z :=
  handle ← load_handle p;
  rw ← as_RWops (file handle);
  r ← prim (SDL_RWsize rw);
  let filesize := to_long model r in
  if filesize <? 0 then
    File_SDLSetError p;;
    ret 1
  else
    r' ← prim (SDL_RWtell rw);
    let position := to_long model r' in
    if position =? -1 then ret 1
    else if position >=? filesize then ret 1
    else ret 0.

(** ** The handle *)

(** The record [calloc] returns, after [handle->type = type]. *)
Definition blank (ty : fhandletype_t) : filehandle_t :=
  {| type := ty; file := NullRes;
     read := None; seek := None; tell := None; size := None;
     getchar := None; getstring := None;
     close := None; error := None; eof := None;
     lasterror := None |}.

(** The nine assignments of entry points of one backend. *)
Definition set_ops (h : filehandle_t) (b : backend) : filehandle_t :=
  {| type := type h; file := file h;
     read := Some b; seek := Some b; tell := Some b; size := Some b;
     getchar := Some b; getstring := Some b;
     close := Some b; error := Some b; eof := Some b;
     lasterror := lasterror h |}.

Definition set_file (h : filehandle_t) (r : resource) : filehandle_t :=
  {| type := type h; file := r;
     read := read h; seek := seek h; tell := tell h; size := size h;
     getchar := getchar h; getstring := getstring h;
     close := close h; error := error h; eof := eof h;
     lasterror := lasterror h |}.

Definition res_of_FILE (o : option FILE) : resource :=
  match o with Some f => StdRes f | None => NullRes end.

Definition res_of_RWops (o : option SDL_RWops) : resource :=
  match o with Some rw => RWRes rw | None => NullRes end.

(** Open a file handle; the result is the handle or NULL. *)
Definition File_Open (filename filemode : string) (ty : fhandletype_t) : M (option loc) :=
  p ← calloc (HandleCell (blank ty));
  match ty with
  | FILEHANDLE_STANDARD =>
      handle ← load_handle p;
      store_handle p (set_ops handle Standard);;
      fp ← prim (fopen filename filemode);
      handle ← load_handle p;
      store_handle p (set_file handle (res_of_FILE fp))
  | FILEHANDLE_SDL =>
      handle ← load_handle p;
      store_handle p (set_ops handle SDL);;
      rw ← prim (SDL_RWFromFile filename filemode);
      handle ← load_handle p;
      store_handle p (set_file handle (res_of_RWops rw))
  | FILEHANDLE_other _ =>
      I_Error "File_Open: unknown file handle type!"
  end;;
  handle ← load_handle p;
  match file handle with
  | NullRes =>
      free p;;
      ret None
  | _ => ret (Some p)
  end.

(** A call through a function pointer of the handle. *)
Definition call {A} (slot : option backend) (std sdl : M A) : M A :=
  match slot with
  | Some Standard => std
  | Some SDL => sdl
  | None => undefined
  end.

(** Close the file handle. *)
Definition File_Close (p : loc) : M Z :=
  handle ← load_handle p;
  ok ← call (close handle) (File_StandardClose (file handle)) (File_SDLClose (file handle));
  handle ← load_handle p;
  match lasterror handle with Some e => free e | None => ret tt end;;
  free p;;
  ret ok.

(** Check for file read errors. *)
Definition File_CheckError (p : loc) : M Z :=
  handle ← load_handle p;
  match type handle with
  | FILEHANDLE_STANDARD =>
      f ← as_FILE (file handle);
      query (ferror f)
  | FILEHANDLE_SDL => ret 0
  | FILEHANDLE_other _ => ret 0
  end.

(** [handle->getstring(handle, str, num)], and likewise for the entry
    points the properties below go through. *)
Definition handle_getstring (p : loc) (str : list Z) (num : Z) : M (bool * list Z) :=
  handle ← load_handle p;
  call (getstring handle) (File_StandardGetString p str num) (File_SDLGetString p str num).

Definition handle_seek (p : loc) (offset origin : Z) : M Z :=
  handle ← load_handle p;
  call (seek handle) (File_StandardSeek p offset origin) (File_SDLSeek p offset origin).

Definition handle_tell (p : loc) : M Z :=
  handle ← load_handle p;
  call (tell handle) (File_StandardTell p) (File_SDLTell p).

Definition handle_size (p : loc) : M Z :=
  handle ← load_handle p;
  call (size handle) (File_StandardSize p) (File_SDLSize p).

(** ** Vocabulary of the properties *)

(** The blocks a handle owns beside itself. *)
Definition owned (h : filehandle_t) : gset loc :=
  match lasterror h with Some old => {[old]} | None => ∅ end.

(** [lasterror] is NULL or a live array of [char]. *)
Definition lasterror_ok (m : gmap loc cell) (h : filehandle_t) : Prop :=
  ∀ old, lasterror h = Some old → ∃ bytes, m !! old = Some (CharCell bytes).

(** The handle at [p] was [h]; now its [lasterror] is a live block [l]
    holding the diagnostic text of the world, every other field is as in
    [h], and the heap has traded the block [h] owned for [l]. *)
Definition refreshed (m : gmap loc cell) (s' : state) (p : loc) (h : filehandle_t) : Prop :=
  ∃ l, mem s' !! p = Some (HandleCell (set_lasterror h (Some l)))
     ∧ mem s' !! l = Some (CharCell (c_bytes (SDL_GetError (env s')) ++ [0]))
     ∧ dom (mem s') = {[l]} ∪ (dom m ∖ owned h)
     ∧ ∀ q, q ≠ p → q ≠ l → q ∉ owned h → mem s' !! q = m !! q.

(** The resource the backend of a known kind opens, and the world after. *)
Definition backend_open (filename filemode : string) (ty : fhandletype_t) (w : world)
  : resource * world :=
  match ty with
  | FILEHANDLE_STANDARD =>
      let '(fp, w') := fopen filename filemode w in (res_of_FILE fp, w')
  | _ =>
      let '(rw, w') := SDL_RWFromFile filename filemode w in (res_of_RWops rw, w')
  end.

Definition backend_of (r : resource) : option backend :=
  match r with
  | NullRes => None
  | StdRes _ => Some Standard
  | RWRes _ => Some SDL
  end.

Definition kind_of (b : backend) : fhandletype_t :=
  match b with Standard => FILEHANDLE_STANDARD | SDL => FILEHANDLE_SDL end.

(** The kind, the resource and the nine entry points agree on one
    backend. *)
Definition well_formed (h : filehandle_t) : Prop :=
  ∃ b, backend_of (file h) = Some b
     ∧ h = set_lasterror (set_file (set_ops (blank (kind_of b)) b) (file h)) (lasterror h).

(** What the entry points rely on of [SDL_RWread]: it stores no more than
    the [size * count] bytes it is asked for. *)
Definition SDL_RWread_bounded : Prop :=
  ∀ rw sz count w, 0 <= sz → 0 <= count →
    Z.of_nat (length (fst (fst (SDL_RWread rw sz count w)))) <= sz * count.

(** What they rely on of [fgets]: it stores no more than [num] bytes, and
    when it returns its argument the last byte stored is the terminator. *)
Definition fgets_bounded : Prop :=
  ∀ f num w, 1 <= num →
    Z.of_nat (length (snd (fst (fgets f num w)))) <= num
    ∧ (fst (fst (fgets f num w)) = true →
       ∃ chars, snd (fst (fgets f num w)) = chars ++ [0]).

(** What the size helper relies on of the stream, in the world [w] in
    which it seeks back: after a seek from the start to a position,
    [ftell] reports that position. *)
Definition seekable (f : FILE) (w : world) : Prop :=
  ∀ pos, 0 <= pos → fits_long model pos →
    fst (ftell f (snd (fseek f pos SEEK_SET w))) = pos.

(** The value [File_SDLSeek] returns for the result [r] of the primitive. *)
Definition seek_status (r : Z) : Z := if to_int r =? -1 then -1 else 0.

(** ** Calls through a handle, one after the other *)

Definition handle_read (p : loc) (ptr : list Z) (sz count : Z) : M (Z * list Z) :=
  handle ← load_handle p;
  call (read handle) (File_StandardRead p ptr sz count) (File_SDLRead p ptr sz count).

Definition handle_getchar (p : loc) : M Z :=
  handle ← load_handle p;
  call (getchar handle) (File_StandardGetChar p) (File_SDLGetChar p).

Definition handle_eof (p : loc) : M Z :=
  handle ← load_handle p;
  call (eof handle) (File_StandardEOF p) (File_SDLEOF p).

(** What a user of an open handle does with it between Open and Close:
    any of the seven calls that move or inspect the stream. *)
Inductive io_call :=
  | CallRead (ptr : list Z) (sz count : Z)
  | CallSeek (offset origin : Z)
  | CallTell
  | CallSize
  | CallGetChar
  | CallGetString (str : list Z) (num : Z)
  | CallEOF.

(** One call, its result dropped. *)
Definition run_call (p : loc) (c : io_call) : M unit :=
  match c with
  | CallRead ptr sz count => handle_read p ptr sz count;; ret tt
  | CallSeek offset origin => handle_seek p offset origin;; ret tt
  | CallTell => handle_tell p;; ret tt
  | CallSize => handle_size p;; ret tt
  | CallGetChar => handle_getchar p;; ret tt
  | CallGetString str num => handle_getstring p str num;; ret tt
  | CallEOF => handle_eof p;; ret tt
  end.

Fixpoint run_calls (p : loc) (cs : list io_call) : M unit :=
  match cs with
  | [] => ret tt
  | c :: cs' => run_call p c;; run_calls p cs'
  end.

(** The destination of a call is as large as the call says. *)
Definition call_ok (c : io_call) : Prop :=
  match c with
  | CallRead ptr sz count =>
      0 <= sz ∧ 0 <= count ∧ sz * count <= Z.of_nat (length ptr)
  | CallGetString str num =>
      1 <= num <= INT_MAX ∧ num <= Z.of_nat (length str)
  | _ => True
  end.

(** The heap without the handle at [p] and the string it caches. *)
Definition others (m : gmap loc cell) (p : loc) (h : filehandle_t) : gmap loc cell :=
  delete p (match lasterror h with Some l => delete l m | None => m end).

(** A handle in use: live at [p], bound as Open binds it, and caching a
    live string or none. *)
Definition handle_inv (s : state) (p : loc) (h : filehandle_t) : Prop :=
  mem s !! p = Some (HandleCell h) ∧ well_formed h ∧ lasterror_ok (mem s) h.


(** What the entry points rely on of [fread]: as for [SDL_RWread]. *)
Definition fread_bounded : Prop :=
  ∀ f sz count w, 0 <= sz → 0 <= count →
    Z.of_nat (length (fst (fst (fread f sz count w)))) <= sz * count.

(** What GetChar relies on of [SDL_RWread]: the elements it reports are
    stored. *)
Definition SDL_RWread_delivers : Prop :=
  ∀ rw sz count w, 0 <= sz → 0 <= count →
    0 <= snd (fst (SDL_RWread rw sz count w))
    ∧ snd (fst (SDL_RWread rw sz count w)) * sz
      <= Z.of_nat (length (fst (fst (SDL_RWread rw sz count w)))).

Definition SIZE_MAX (d : data_model) : Z := 2 ^ size_t_bits d - 1.

(** What the bound [close] does to the resource: its status and the world
    after. *)
Definition backend_close (r : resource) (w : world) : Z * world :=
  match r with
  | StdRes f => fclose f w
  | RWRes rw => SDL_RWclose rw w
  | NullRes => (0, w)
  end.

(** The four contracts of the reading primitives together. *)
Definition reads_in_bounds : Prop :=
  fread_bounded ∧ SDL_RWread_bounded ∧ SDL_RWread_delivers ∧ fgets_bounded.

(** Every field of [h'] other than [lasterror] is the field of [h]. *)
Definition same_binding (h h' : filehandle_t) : Prop :=
  type h' = type h ∧ file h' = file h
  ∧ read h' = read h ∧ seek h' = seek h ∧ tell h' = tell h ∧ size h' = size h
  ∧ getchar h' = getchar h ∧ getstring h' = getstring h
  ∧ close h' = close h ∧ error h' = error h ∧ eof h' = eof h.

(** What a run of [File_SDLSetError] leaves, read off the record at [p]
    field by field: its [lasterror] points to a block [l] that holds the
    diagnostic text of the world and its terminator, the other fields are
    those of [h], the handle [h] that was there before; the heap is the
    heap [m] from before without the block [h] cached ([owned h]), with
    [l] added and nothing else changed. *)
Definition recached (m : gmap loc cell) (s' : state) (p : loc) (h : filehandle_t) : Prop :=
  ∃ h' l, mem s' !! p = Some (HandleCell h')
        ∧ lasterror h' = Some l
        ∧ same_binding h h'
        ∧ mem s' !! l = Some (CharCell (c_bytes (SDL_GetError (env s')) ++ [0]))
        ∧ l ≠ p
        ∧ dom (mem s') = {[l]} ∪ (dom m ∖ owned h)
        ∧ ∀ q, q ≠ p → q ≠ l → q ∉ owned h → mem s' !! q = m !! q.

End Handle.

(** ** A platform in memory

    Files are byte strings on a disk keyed by path; a stream is a copy of
    the bytes with a position and the two indicators of <stdio.h>.  Both
    kinds of stream are numbered by their place in the table of open
    streams.  Seeking past the end is allowed, as it is on a file. *)
Module Ram.

Record stream := {
  content : list Z;
  offset : Z;
  err_flag : bool;
  eof_flag : bool
}.

Record machine := {
  disk : list (string * list Z);
  streams : list stream;
  sdl_error : string
}.

Definition find_file (path : string) (w : machine) : option (list Z) :=
  snd <$> List.find (λ e, bool_decide (fst e = path)) (disk w).

Definition set_streams (w : machine) (l : list stream) : machine :=
  {| disk := disk w; streams := l; sdl_error := sdl_error w |}.

Definition set_error (w : machine) (e : string) : machine :=
  {| disk := disk w; streams := streams w; sdl_error := e |}.

Definition set_offset (st : stream) (o : Z) : stream :=
  {| content := content st; offset := o; err_flag := err_flag st; eof_flag := false |}.

Definition set_eof (st : stream) : stream :=
  {| content := content st; offset := offset st; err_flag := err_flag st; eof_flag := true |}.

Definition open (path : string) (w : machine) : option nat * machine :=
  match find_file path w with
  | Some bytes =>
      (Some (length (streams w)),
       set_streams w (streams w ++
         [{| content := bytes; offset := 0; err_flag := false; eof_flag := false |}]))
  | None => (None, w)
  end.

Definition rwopen (path mode : string) (w : machine) : option nat * machine :=
  match open path w with
  | (Some id, w') => (Some id, w')
  | (None, w') => (None, set_error w' ("Couldn't open " +:+ path))
  end.

(** The bytes from the position on. *)
Definition rest (st : stream) : list Z := drop (Z.to_nat (offset st)) (content st).

Definition read (id : nat) (sz count : Z) (w : machine) : (list Z * Z) * machine :=
  match streams w !! id with
  | Some st =>
      if decide (0 < sz ∧ 0 < count) then
        let n := Z.min count (Z.of_nat (length (rest st)) / sz) in
        let data := take (Z.to_nat (n * sz)) (rest st) in
        let st' := set_offset st (offset st + n * sz) in
        ((data, n),
         set_streams w (<[id := if decide (n < count) then set_eof st' else st']> (streams w)))
      else (([], 0), w)
  | None => (([], 0), w)
  end.

Definition target (st : stream) (off whence : Z) : option Z :=
  let base :=
    if whence =? 0 then Some 0
    else if whence =? 1 then Some (offset st)
    else if whence =? 2 then Some (Z.of_nat (length (content st)))
    else None in
  match base with
  | Some b => if decide (0 <= b + off) then Some (b + off) else None
  | None => None
  end.

Definition seek (id : nat) (off whence : Z) (w : machine) : Z * machine :=
  match streams w !! id with
  | Some st =>
      match target st off whence with
      | Some o => (0, set_streams w (<[id := set_offset st o]> (streams w)))
      | None => (-1, w)
      end
  | None => (-1, w)
  end.

Definition rwseek (id : nat) (off whence : Z) (w : machine) : Z * machine :=
  match streams w !! id with
  | Some st =>
      match target st off whence with
      | Some o => (o, set_streams w (<[id := set_offset st o]> (streams w)))
      | None => (-1, set_error w "Error seeking in datastream")
      end
  | None => (-1, set_error w "Invalid RWops")
  end.

Definition tell (id : nat) (w : machine) : Z * machine :=
  match streams w !! id with
  | Some st => (offset st, w)
  | None => (-1, w)
  end.

Definition rwsize (id : nat) (w : machine) : Z * machine :=
  match streams w !! id with
  | Some st => (Z.of_nat (length (content st)), w)
  | None => (-1, set_error w "Invalid RWops")
  end.

Definition getc (id : nat) (w : machine) : Z * machine :=
  match streams w !! id with
  | Some st =>
      match rest st with
      | c :: _ => (c, set_streams w (<[id := set_offset st (offset st + 1)]> (streams w)))
      | [] => (EOF, set_streams w (<[id := set_eof st]> (streams w)))
      end
  | None => (EOF, w)
  end.

(** The characters [fgets] takes: up to [n], through the first newline. *)
Fixpoint line (n : nat) (l : list Z) : list Z :=
  match n, l with
  | S n', c :: l' => c :: (if c =? 10 then [] else line n' l')
  | _, _ => []
  end.

Definition gets (id : nat) (num : Z) (w : machine) : (bool * list Z) * machine :=
  match streams w !! id with
  | Some st =>
      if decide (1 <= num) then
        let chars := line (Z.to_nat (num - 1)) (rest st) in
        let st' := set_offset st (offset st + Z.of_nat (length chars)) in
        match chars, decide (num = 1) with
        | [], right _ => ((false, []), set_streams w (<[id := set_eof st]> (streams w)))
        | _, _ => ((true, chars ++ [0]), set_streams w (<[id := st']> (streams w)))
        end
      else ((false, []), w)
  | None => ((false, []), w)
  end.

Definition flag (b : bool) : Z := if b then 1 else 0.

Definition error_of (id : nat) (w : machine) : Z :=
  match streams w !! id with Some st => flag (err_flag st) | None => 0 end.

Definition eof_of (id : nat) (w : machine) : Z :=
  match streams w !! id with Some st => flag (eof_flag st) | None => 0 end.

Definition closed (id : nat) (w : machine) : Z * machine := (0, w).

(** LP64 with a signed [char], as on x86-64. *)
Definition platform : Platform := {|
  model := LP64;
  char_is_signed := true;
  world := machine;
  FILE := nat;
  SDL_RWops := nat;
  fopen := λ path _, open path;
  fclose := closed;
  fread := read;
  fseek := seek;
  ftell := tell;
  fgetc := getc;
  fgets := gets;
  ferror := error_of;
  feof := eof_of;
  SDL_RWFromFile := rwopen;
  SDL_RWread := read;
  SDL_RWseek := rwseek;
  SDL_RWtell := tell;
  SDL_RWsize := rwsize;
  SDL_RWclose := closed;
  SDL_GetError := sdl_error;
  M_FileError := λ id w, if error_of id w =? 0 then "end-of-file" else "I/O error"
|}.

(** A disk with one file of four bytes, nothing open, no heap block. *)
Definition boot : @state platform :=
  @Build_state platform ∅
    {| disk := [("t.bin", [65; 66; 67; 68])]; streams := []; sdl_error := "" |}.

(** The handle [File_Open] builds for the stream 0 over SDL. *)
Definition sdl_handle (e : option loc) : @filehandle_t platform :=
  @set_lasterror platform
    (@set_file platform (@set_ops platform (@blank platform FILEHANDLE_SDL) SDL)
       (@RWRes platform 0%nat)) e.

(** The same over the C library. *)
Definition std_handle : @filehandle_t platform :=
  @set_file platform (@set_ops platform (@blank platform FILEHANDLE_STANDARD) Standard)
    (@StdRes platform 0%nat).

(** A file open as stream 0 with [bytes] in it, read up to position [pos];
    its handle [h] at location 1 and a cached string [text] at location 2.
    [File_Open] and a seek lead from a disk with that file to here. *)
Definition playing (h : @filehandle_t platform) (text : string) (bytes : list Z) (pos : Z)
  : @state platform :=
  @Build_state platform
    (<[2%positive := @CharCell platform (c_bytes text ++ [0])]>
       (<[1%positive := @HandleCell platform h]> ∅))
    {| disk := [("t.bin", bytes)];
       streams := [{| content := bytes; offset := pos;
                      err_flag := false; eof_flag := false |}];
       sdl_error := text |}.

End Ram.

(** ** A platform with a 32-bit [long int] and a file without bounds

    LLP64, as on 64-bit Windows: [long int] has 32 bits, [size_t] and the
    positions SDL counts in have 64.  One file of [extent] zero bytes is
    open as the only stream of both libraries.  A position that [long int]
    does not represent makes [ftell] fail; the seeks accept every position
    that is not negative, past the end too. *)
Module Sparse.

Record machine := {
  extent : Z;
  offset : Z;
  sdl_error : string
}.

Definition set_offset (w : machine) (o : Z) : machine :=
  {| extent := extent w; offset := o; sdl_error := sdl_error w |}.

Definition set_error (w : machine) (e : string) : machine :=
  {| extent := extent w; offset := offset w; sdl_error := e |}.

(** The elements of [sz] bytes left before the end, at most [count]. *)
Definition available (w : machine) (sz count : Z) : Z :=
  if decide (0 < sz ∧ 0 < count ∧ offset w < extent w)
  then Z.min count ((extent w - offset w) / sz)
  else 0.

Definition read (_ : unit) (sz count : Z) (w : machine) : (list Z * Z) * machine :=
  let n := available w sz count in
  ((replicate (Z.to_nat (n * sz)) 0, n), set_offset w (offset w + n * sz)).

Definition target (w : machine) (off whence : Z) : option Z :=
  let base :=
    if whence =? 0 then Some 0
    else if whence =? 1 then Some (offset w)
    else if whence =? 2 then Some (extent w)
    else None in
  match base with
  | Some b => if decide (0 <= b + off) then Some (b + off) else None
  | None => None
  end.

Definition seek (_ : unit) (off whence : Z) (w : machine) : Z * machine :=
  match target w off whence with
  | Some o => (0, set_offset w o)
  | None => (-1, w)
  end.

Definition rwseek (_ : unit) (off whence : Z) (w : machine) : Z * machine :=
  match target w off whence with
  | Some o => (o, set_offset w o)
  | None => (-1, set_error w "Error seeking in datastream")
  end.

(** [ftell] returns a [long int]. *)
Definition tell (_ : unit) (w : machine) : Z * machine :=
  (if decide (offset w <= LONG_MAX LLP64) then offset w else -1, w).

Definition rwtell (_ : unit) (w : machine) : Z * machine := (offset w, w).

Definition rwsize (_ : unit) (w : machine) : Z * machine := (extent w, w).

Definition getc (_ : unit) (w : machine) : Z * machine :=
  if decide (offset w < extent w) then (0, set_offset w (offset w + 1)) else (EOF, w).

(** No byte of the file is a newline. *)
Definition gets (_ : unit) (num : Z) (w : machine) : (bool * list Z) * machine :=
  let n := available w 1 (num - 1) in
  if decide (num < 1 ∨ (n = 0 ∧ num ≠ 1)) then ((false, []), w)
  else ((true, replicate (Z.to_nat n) 0 ++ [0]), set_offset w (offset w + n)).

Definition platform : Platform := {|
  model := LLP64;
  char_is_signed := true;
  world := machine;
  FILE := unit;
  SDL_RWops := unit;
  fopen := λ _ _ w, (Some tt, set_offset w 0);
  fclose := λ _ w, (0, w);
  fread := read;
  fseek := seek;
  ftell := tell;
  fgetc := getc;
  fgets := gets;
  ferror := λ _ _, 0;
  feof := λ _ w, if decide (extent w <= offset w) then 1 else 0;
  SDL_RWFromFile := λ _ _ w, (Some tt, set_offset w 0);
  SDL_RWread := read;
  SDL_RWseek := rwseek;
  SDL_RWtell := rwtell;
  SDL_RWsize := rwsize;
  SDL_RWclose := λ _ w, (0, w);
  SDL_GetError := sdl_error;
  M_FileError := λ _ _, "end-of-file"
|}.

(** The handle [File_Open] builds over SDL, caching the string at [e]. *)
Definition sdl_handle (e : option loc) : @filehandle_t platform :=
  @set_lasterror platform
    (@set_file platform (@set_ops platform (@blank platform FILEHANDLE_SDL) SDL)
       (@RWRes platform tt)) e.

(** The same over the C library. *)
Definition std_handle : @filehandle_t platform :=
  @set_file platform (@set_ops platform (@blank platform FILEHANDLE_STANDARD) Standard)
    (@StdRes platform tt).

(** The file of [size] bytes at position [pos], its handle [h] at location
    1 and an empty cached string at location 2. *)
Definition playing (h : @filehandle_t platform) (size pos : Z) : @state platform :=
  @Build_state platform
    (<[2%positive := @CharCell platform [0]]>
       (<[1%positive := @HandleCell platform h]> ∅))
    {| extent := size; offset := pos; sdl_error := "" |}.

End Sparse.

(** * Properties *)

(** ** Integer conversions *)

Lemma wrap_signed_id (w z : Z) :
  0 < w → - 2 ^ (w - 1) <= z < 2 ^ (w - 1) → wrap_signed w z = z.
Proof.
  intros Hw Hz. unfold wrap_signed.
  assert (Hp : 2 ^ w = 2 * 2 ^ (w - 1)).
  { replace w with (Z.succ (w - 1)) at 1 by lia. apply Z.pow_succ_r. lia. }
  rewrite Z.mod_small; lia.
Qed.

Lemma wrap_unsigned_id (w z : Z) : 0 <= z < 2 ^ w → wrap_unsigned w z = z.
Proof. intros Hz. unfold wrap_unsigned. apply Z.mod_small. lia. Qed.

Lemma long_bits_pos (d : data_model) : 0 < long_bits d.
Proof. destruct d; reflexivity. Qed.

Lemma to_long_id (d : data_model) (z : Z) : fits_long d z → to_long d z = z.
Proof.
  unfold fits_long, LONG_MIN, LONG_MAX, to_long. intros Hz.
  apply wrap_signed_id; [apply long_bits_pos | lia].
Qed.

(** A position that [long int] represents survives the trip through
    [size_t] that the size helper makes. *)
Lemma long_size_t_long (d : data_model) (z : Z) :
  0 <= z → fits_long d z → to_long d (to_size_t d z) = z.
Proof.
  intros H0 Hz. unfold to_size_t. rewrite wrap_unsigned_id.
  - by apply to_long_id.
  - unfold fits_long, LONG_MIN, LONG_MAX in Hz. destruct d; simpl in *; lia.
Qed.

(** The count [num - 1] of an [int num >= 1] is the same as a [size_t]. *)
Lemma to_size_t_count (d : data_model) (num : Z) :
  1 <= num <= INT_MAX → to_size_t d (num - 1) = num - 1.
Proof.
  unfold INT_MAX, int_bits. intros Hnum. apply wrap_unsigned_id.
  destruct d; simpl; lia.
Qed.

Lemma c_bytes_length (t : string) : length (c_bytes t) = String.length t.
Proof.
  unfold c_bytes. rewrite length_fmap.
  induction t as [|a t IH]; simpl; [done | by rewrite IH].
Qed.

Section Properties.
Context `{PF : Platform}.

(** ** Stepping through the monad *)

Lemma bind_Done {A B} (m : M A) (k : A → M B) s a s' :
  m s = Done (a, s') → (m ≫= k) s = k a s'.
Proof. intros Hm. unfold mbind, M_bind, bind. by rewrite Hm. Qed.

Lemma bind_Undefined {A B} (m : M A) (k : A → M B) s :
  m s = Undefined → (m ≫= k) s = Undefined.
Proof. intros Hm. unfold mbind, M_bind, bind. by rewrite Hm. Qed.

Lemma bind_Fatal {A B} (m : M A) (k : A → M B) s msg :
  m s = Fatal msg → (m ≫= k) s = Fatal msg.
Proof. intros Hm. unfold mbind, M_bind, bind. by rewrite Hm. Qed.

Lemma ret_Done {A} (a : A) s : mret (M := M) a s = Done (a, s).
Proof. reflexivity. Qed.

Lemma load_handle_Done s p h :
  mem s !! p = Some (HandleCell h) → load_handle p s = Done (h, s).
Proof. intros Hp. unfold load_handle. by rewrite Hp. Qed.

Lemma store_handle_Done s p h h' :
  mem s !! p = Some (HandleCell h) →
  store_handle p h' s = Done (tt, {| mem := <[p := HandleCell h']> (mem s); env := env s |}).
Proof. intros Hp. unfold store_handle. by rewrite Hp. Qed.

Lemma prim_Done {A} (f : world → A * world) s :
  prim f s = Done (fst (f (env s)), {| mem := mem s; env := snd (f (env s)) |}).
Proof. unfold prim. by destruct (f (env s)). Qed.

Lemma query_Done {A} (f : world → A) s : query f s = Done (f (env s), s).
Proof. reflexivity. Qed.

Lemma as_RWops_Done rw s : as_RWops (RWRes rw) s = Done (rw, s).
Proof. reflexivity. Qed.

Lemma as_FILE_Done f s : as_FILE (StdRes f) s = Done (f, s).
Proof. reflexivity. Qed.

(** ** The cached error string *)

Lemma File_SDLSetError_spec s p h :
  mem s !! p = Some (HandleCell h) →
  lasterror_ok (mem s) h →
  ∃ s', File_SDLSetError p s = Done (tt, s') ∧ env s' = env s ∧ refreshed (mem s) s' p h.
Proof.
  intros Hp Hok. unfold File_SDLSetError.
  rewrite (bind_Done _ _ _ _ _ (query_Done _ _)).
  rewrite (bind_Done _ _ _ _ _ (load_handle_Done _ _ _ Hp)).
  set (m0 := match lasterror h with Some old => delete old (mem s) | None => mem s end).
  assert (Hfree : (match lasterror h with Some old => free old | None => mret tt end) s
                  = Done (tt, {| mem := m0; env := env s |})).
  { unfold m0. destruct (lasterror h) as [old|] eqn:Hl.
    - destruct (Hok old Hl) as [bytes Hold]. unfold free. by rewrite Hold.
    - rewrite ret_Done. by destruct s. }
  assert (Hp0 : m0 !! p = Some (HandleCell h)).
  { unfold m0. destruct (lasterror h) as [old|] eqn:Hl; [|done].
    destruct (Hok old Hl) as [bytes Hold].
    rewrite lookup_delete_ne; [done | congruence]. }
  assert (Hdom0 : dom m0 = dom (mem s) ∖ owned h).
  { unfold m0, owned. destruct (lasterror h); [apply dom_delete_L|].
    by rewrite difference_empty_L. }
  rewrite (bind_Done _ _ _ _ _ Hfree).
  set (l := fresh (dom m0)).
  assert (Hl : m0 !! l = None).
  { apply not_elem_of_dom. apply is_fresh. }
  assert (Hlp : l ≠ p) by congruence.
  unfold calloc at 1. unfold mbind at 1, M_bind at 1, bind at 1. cbn [mem env].
  fold l.
  erewrite (bind_Done _ _ _ _ _).
  2:{ apply load_handle_Done. cbn [mem]. rewrite lookup_insert_ne; [exact Hp0 | done]. }
  erewrite (bind_Done _ _ _ _ _).
  2:{ eapply store_handle_Done. cbn [mem]. rewrite lookup_insert_ne; [exact Hp0 | done]. }
  cbn [mem env]. unfold strcpy. cbn [mem env].
  rewrite lookup_insert_ne by done. rewrite lookup_insert_eq.
  rewrite decide_True.
  2:{ rewrite length_app, length_replicate, c_bytes_length. unfold strlen. simpl. lia. }
  eexists. split; [reflexivity|]. split; [reflexivity|].
  exists l. cbn [mem env]. repeat split.
  - rewrite lookup_insert_ne by done. by rewrite lookup_insert_eq.
  - rewrite lookup_insert_eq. f_equal. f_equal.
    rewrite drop_ge; [by rewrite app_nil_r|].
    rewrite length_app, length_replicate, c_bytes_length. unfold strlen. simpl. lia.
  - rewrite !dom_insert_L, Hdom0.
    assert (Hin : p ∈ dom (mem s) ∖ owned h).
    { rewrite <- Hdom0. apply elem_of_dom. eauto. }
    apply (proj2 (set_eq _ _)). intros x.
    rewrite !elem_of_union, !elem_of_singleton.
    split; [intros [->|[->|[->|?]]]|intros [->|?]]; auto.
  - intros q Hqp Hql Hq.
    rewrite lookup_insert_ne by done. rewrite lookup_insert_ne by done.
    rewrite lookup_insert_ne by done.
    unfold m0, owned in *. destruct (lasterror h) as [old|]; [|done].
    rewrite lookup_delete_ne; [done|]. intros ->. apply Hq. by apply elem_of_singleton.
Qed.

(** Running a primitive and then [File_SDLSetError], as the four entry
    points below do. *)
Lemma prim_then_SetError {A B} (f : world → A * world) (k : A → B) s p h :
  mem s !! p = Some (HandleCell h) →
  lasterror_ok (mem s) h →
  ∃ s', (r ← prim f; File_SDLSetError p;; mret (k r)) s = Done (k (fst (f (env s))), s')
      ∧ env s' = snd (f (env s))
      ∧ refreshed (mem s) s' p h.
Proof.
  intros Hp Hok.
  rewrite (bind_Done _ _ _ _ _ (prim_Done _ _)).
  destruct (File_SDLSetError_spec {| mem := mem s; env := snd (f (env s)) |} p h Hp Hok)
    as (s' & Hrun & Henv & Href).
  exists s'. rewrite (bind_Done _ _ _ _ _ Hrun). by rewrite ret_Done.
Qed.

Lemma File_SDLSeek_spec s p h rw offset origin :
  mem s !! p = Some (HandleCell h) →
  file h = RWRes rw →
  lasterror_ok (mem s) h →
  let out := SDL_RWseek rw offset (seek_type origin) (env s) in
  ∃ s', File_SDLSeek p offset origin s = Done (seek_status (fst out), s')
      ∧ env s' = snd out
      ∧ refreshed (mem s) s' p h.
Proof.
  intros Hp Hf Hok out. unfold File_SDLSeek.
  rewrite (bind_Done _ _ _ _ _ (load_handle_Done _ _ _ Hp)). rewrite Hf.
  rewrite (bind_Done _ _ _ _ _ (as_RWops_Done _ _)).
  apply (prim_then_SetError _ seek_status s p h Hp Hok).
Qed.

Lemma File_SDLTell_spec s p h rw :
  mem s !! p = Some (HandleCell h) →
  file h = RWRes rw →
  lasterror_ok (mem s) h →
  let out := SDL_RWtell rw (env s) in
  ∃ s', File_SDLTell p s = Done (to_long model (fst out), s')
      ∧ env s' = snd out
      ∧ refreshed (mem s) s' p h.
Proof.
  intros Hp Hf Hok out. unfold File_SDLTell.
  rewrite (bind_Done _ _ _ _ _ (load_handle_Done _ _ _ Hp)). rewrite Hf.
  rewrite (bind_Done _ _ _ _ _ (as_RWops_Done _ _)).
  apply (prim_then_SetError _ (to_long model) s p h Hp Hok).
Qed.

Lemma File_SDLSize_spec s p h rw :
  mem s !! p = Some (HandleCell h) →
  file h = RWRes rw →
  lasterror_ok (mem s) h →
  let out := SDL_RWsize rw (env s) in
  ∃ s', File_SDLSize p s = Done (to_size_t model (fst out), s')
      ∧ env s' = snd out
      ∧ refreshed (mem s) s' p h.
Proof.
  intros Hp Hf Hok out. unfold File_SDLSize.
  rewrite (bind_Done _ _ _ _ _ (load_handle_Done _ _ _ Hp)). rewrite Hf.
  rewrite (bind_Done _ _ _ _ _ (as_RWops_Done _ _)).
  apply (prim_then_SetError _ (to_size_t model) s p h Hp Hok).
Qed.

Lemma store_bytes_Done (buf data : list Z) s :
  (length data ≤ length buf)%nat →
  store_bytes buf data s = Done (data ++ drop (length data) buf, s).
Proof. intros Hle. unfold store_bytes. by rewrite decide_True. Qed.

Lemma File_SDLRead_spec s p h rw ptr sz count :
  mem s !! p = Some (HandleCell h) →
  file h = RWRes rw →
  lasterror_ok (mem s) h →
  let out := SDL_RWread rw sz count (env s) in
  let data := fst (fst out) in
  (length data ≤ length ptr)%nat →
  ∃ s', File_SDLRead p ptr sz count s
        = Done ((snd (fst out), data ++ drop (length data) ptr), s')
      ∧ env s' = snd out
      ∧ refreshed (mem s) s' p h.
Proof.
  intros Hp Hf Hok out data Hfit. unfold File_SDLRead.
  rewrite (bind_Done _ _ _ _ _ (load_handle_Done _ _ _ Hp)). rewrite Hf.
  rewrite (bind_Done _ _ _ _ _ (as_RWops_Done _ _)).
  rewrite (bind_Done _ _ _ _ _ (prim_Done _ _)).
  fold out. destruct out as [[data' n] w'] eqn:Hout. simpl in data. subst data. cbn [fst snd].
  rewrite (bind_Done _ _ _ _ _ (store_bytes_Done _ _ _ Hfit)).
  destruct (File_SDLSetError_spec {| mem := mem s; env := w' |} p h Hp Hok)
    as (s' & Hrun & Henv & Href).
  exists s'. by rewrite (bind_Done _ _ _ _ _ Hrun).
Qed.

(** The record [File_SDLSetError] stores, read field by field. *)
Lemma refreshed_recached m s' p h : refreshed m s' p h → recached m s' p h.
Proof.
  intros (l & Hp & Hl & Hdom & Hframe).
  exists (set_lasterror h (Some l)), l.
  split; [exact Hp|]. split; [reflexivity|]. split; [by repeat split|].
  split; [exact Hl|]. split; [congruence|]. by split.
Qed.

(** C3. On a handle of the SDL backend whose [lasterror] is NULL or a live
    string, each of Read, Seek, Tell and Size returns, whatever its
    primitive returned, and afterwards the [lasterror] field of the handle
    points to a block holding the text [SDL_GetError] gives in the world
    the primitive call left behind; every other field of the handle is
    unchanged; the block [lasterror] pointed to before is released (the
    heap is the old one minus that block plus the new one). *)
Theorem lasterror_follows_every_call s p h rw :
  mem s !! p = Some (HandleCell h) →
  file h = RWRes rw →
  lasterror_ok (mem s) h →
  (∀ ptr sz count,
     let out := SDL_RWread rw sz count (env s) in
     (length (fst (fst out)) ≤ length ptr)%nat →
     ∃ r s', File_SDLRead p ptr sz count s = Done (r, s')
           ∧ env s' = snd out ∧ recached (mem s) s' p h)
  ∧ (∀ offset origin,
     ∃ r s', File_SDLSeek p offset origin s = Done (r, s')
           ∧ env s' = snd (SDL_RWseek rw offset (seek_type origin) (env s))
           ∧ recached (mem s) s' p h)
  ∧ (∃ r s', File_SDLTell p s = Done (r, s')
           ∧ env s' = snd (SDL_RWtell rw (env s)) ∧ recached (mem s) s' p h)
  ∧ (∃ r s', File_SDLSize p s = Done (r, s')
           ∧ env s' = snd (SDL_RWsize rw (env s)) ∧ recached (mem s) s' p h).
Proof.
  intros Hp Hf Hok. repeat split.
  - intros ptr sz count out Hfit.
    destruct (File_SDLRead_spec s p h rw ptr sz count Hp Hf Hok Hfit)
      as (s' & Hrun & Henv & Href).
    eexists _, s'. split; [exact Hrun|]. split; [exact Henv|].
    by apply refreshed_recached.
  - intros offset origin.
    destruct (File_SDLSeek_spec s p h rw offset origin Hp Hf Hok)
      as (s' & Hrun & Henv & Href).
    eexists _, s'. split; [exact Hrun|]. split; [exact Henv|].
    by apply refreshed_recached.
  - destruct (File_SDLTell_spec s p h rw Hp Hf Hok) as (s' & Hrun & Henv & Href).
    eexists _, s'. split; [exact Hrun|]. split; [exact Henv|].
    by apply refreshed_recached.
  - destruct (File_SDLSize_spec s p h rw Hp Hf Hok) as (s' & Hrun & Henv & Href).
    eexists _, s'. split; [exact Hrun|]. split; [exact Henv|].
    by apply refreshed_recached.
Qed.

(** ** Open and CheckError *)

Lemma calloc_Done c s :
  calloc c s = Done (fresh (dom (mem s)),
                     {| mem := <[fresh (dom (mem s)) := c]> (mem s); env := env s |}).
Proof. reflexivity. Qed.

Lemma fresh_free (m : gmap loc cell) : m !! fresh (dom m) = None.
Proof. apply not_elem_of_dom, is_fresh. Qed.

(** C4. On a live handle, CheckError returns [ferror] of the resource when
    the kind is Standard, and 0 when the kind is SDL, in every state of
    heap and world (so whatever happened to the handle before); it changes
    nothing. *)
Theorem CheckError_by_kind s p h :
  mem s !! p = Some (HandleCell h) →
  (∀ f, type h = FILEHANDLE_STANDARD → file h = StdRes f →
        File_CheckError p s = Done (ferror f (env s), s))
  ∧ (type h = FILEHANDLE_SDL → File_CheckError p s = Done (0, s)).
Proof.
  intros Hp. unfold File_CheckError.
  rewrite (bind_Done _ _ _ _ _ (load_handle_Done _ _ _ Hp)). split.
  - intros f Hty Hf. rewrite Hty, Hf.
    by rewrite (bind_Done _ _ _ _ _ (as_FILE_Done _ _)).
  - intros Hty. by rewrite Hty.
Qed.

Lemma File_Open_other filename filemode v s :
  File_Open filename filemode (FILEHANDLE_other v) s
  = Fatal "File_Open: unknown file handle type!".
Proof.
  unfold File_Open. rewrite (bind_Done _ _ _ _ _ (calloc_Done _ _)).
  by erewrite bind_Fatal.
Qed.

(** C6. Open with a kind that is neither Standard nor SDL ends in the
    fatal error of [I_Error], for every path, mode and state: no handle and
    no NULL comes back. *)
Theorem Open_unknown_kind_is_fatal filename filemode v s :
  File_Open filename filemode (FILEHANDLE_other v) s
    = Fatal "File_Open: unknown file handle type!"
  ∧ ∀ r, File_Open filename filemode (FILEHANDLE_other v) s ≠ Done r.
Proof.
  split; [apply File_Open_other | intros r; by rewrite File_Open_other].
Qed.

(** Open runs to its test of [handle->file] with a fresh block that holds
    the bound handle. *)
Lemma File_Open_known filename filemode ty b s :
  (ty = FILEHANDLE_STANDARD ∧ b = Standard) ∨ (ty = FILEHANDLE_SDL ∧ b = SDL) →
  let p := fresh (dom (mem s)) in
  let out := backend_open filename filemode ty (env s) in
  let h := set_file (set_ops (blank ty) b) (fst out) in
  File_Open filename filemode ty s
  = match fst out with
    | NullRes => Done (None, {| mem := mem s; env := snd out |})
    | _ => Done (Some p, {| mem := <[p := HandleCell h]> (mem s); env := snd out |})
    end.
Proof.
  intros Hty p out h. subst h out.
  pose proof (fresh_free (mem s)) as Hfresh. fold p in Hfresh.
  unfold File_Open, backend_open.
  rewrite (bind_Done _ _ _ _ _ (calloc_Done _ _)). fold p.
  unfold mbind, M_bind, bind, load_handle, store_handle, prim, free, mret, M_ret, ret.
  destruct Hty as [[-> ->] | [-> ->]];
    repeat (rewrite ?lookup_insert_eq, ?insert_insert_eq; cbn [mem env]).
  - destruct (fopen filename filemode (env s)) as [[f|] w'];
      repeat (rewrite ?lookup_insert_eq, ?insert_insert_eq;
              cbn [mem env fst snd file set_file res_of_FILE]);
      [reflexivity|].
    by rewrite delete_insert_id.
  - destruct (SDL_RWFromFile filename filemode (env s)) as [[rw|] w'];
      repeat (rewrite ?lookup_insert_eq, ?insert_insert_eq;
              cbn [mem env fst snd file set_file res_of_RWops]);
      [reflexivity|].
    by rewrite delete_insert_id.
Qed.

(** C7. For the two known kinds, when the backend cannot open the named
    resource Open returns NULL and the heap is the one it started from: the
    handle record it allocated is released and nothing else was allocated. *)
Theorem Open_failure_releases_handle filename filemode ty s :
  (ty = FILEHANDLE_STANDARD ∧ fst (fopen filename filemode (env s)) = None)
  ∨ (ty = FILEHANDLE_SDL ∧ fst (SDL_RWFromFile filename filemode (env s)) = None) →
  ∃ s', File_Open filename filemode ty s = Done (None, s')
      ∧ mem s' = mem s
      ∧ env s' = snd (backend_open filename filemode ty (env s)).
Proof.
  intros Hfail.
  assert (Hnull : fst (backend_open filename filemode ty (env s)) = NullRes).
  { destruct Hfail as [[-> Hopen] | [-> Hopen]]; unfold backend_open.
    - destruct (fopen filename filemode (env s)) as [fp w']. simpl in *. by subst fp.
    - destruct (SDL_RWFromFile filename filemode (env s)) as [rw w']. simpl in *. by subst rw. }
  exists {| mem := mem s; env := snd (backend_open filename filemode ty (env s)) |}.
  split; [|split; reflexivity].
  destruct Hfail as [[-> _] | [-> _]].
  - rewrite (File_Open_known filename filemode _ Standard) by (left; done).
    by rewrite Hnull.
  - rewrite (File_Open_known filename filemode _ SDL) by (right; done).
    by rewrite Hnull.
Qed.

(** ** Handles as Open builds them *)


(** ** GetLine *)

Lemma store_byte_Done (buf : list Z) (i b : Z) s :
  0 <= i < Z.of_nat (length buf) →
  store_byte buf i b s = Done (<[Z.to_nat i := b]> buf, s).
Proof. intros Hi. unfold store_byte. by rewrite decide_True. Qed.

Lemma File_SDLGetString_empty s p h rw str num :
  mem s !! p = Some (HandleCell h) →
  file h = RWRes rw →
  lasterror_ok (mem s) h →
  let out := SDL_RWread rw 1 (to_size_t model (num - 1)) (env s) in
  let data := fst (fst out) in
  (length data ≤ length str)%nat →
  snd (fst out) = 0 →
  ∃ s', File_SDLGetString p str num s
        = Done ((false, data ++ drop (length data) str), s')
      ∧ env s' = snd out
      ∧ refreshed (mem s) s' p h.
Proof.
  intros Hp Hf Hok out data Hfit Hn. unfold File_SDLGetString.
  rewrite (bind_Done _ _ _ _ _ (load_handle_Done _ _ _ Hp)). rewrite Hf.
  rewrite (bind_Done _ _ _ _ _ (as_RWops_Done _ _)).
  rewrite (bind_Done _ _ _ _ _ (prim_Done _ _)).
  fold out. destruct out as [[data' n] w'] eqn:Hout. simpl in data, Hn. subst data n.
  cbn [fst snd].
  rewrite (bind_Done _ _ _ _ _ (store_bytes_Done _ _ _ Hfit)). cbn [Z.eqb].
  destruct (File_SDLSetError_spec {| mem := mem s; env := w' |} p h Hp Hok)
    as (s' & Hrun & Henv & Href).
  exists s'. by rewrite (bind_Done _ _ _ _ _ Hrun).
Qed.

Lemma File_SDLGetString_some s p h rw str num :
  mem s !! p = Some (HandleCell h) →
  file h = RWRes rw →
  let out := SDL_RWread rw 1 (to_size_t model (num - 1)) (env s) in
  let data := fst (fst out) in
  (length data ≤ length str)%nat →
  snd (fst out) ≠ 0 →
  0 <= num - 1 < Z.of_nat (length str) →
  File_SDLGetString p str num s
  = Done ((true, <[Z.to_nat (num - 1) := 0]> (data ++ drop (length data) str)),
          {| mem := mem s; env := snd out |}).
Proof.
  intros Hp Hf out data Hfit Hn Hnum. unfold File_SDLGetString.
  rewrite (bind_Done _ _ _ _ _ (load_handle_Done _ _ _ Hp)). rewrite Hf.
  rewrite (bind_Done _ _ _ _ _ (as_RWops_Done _ _)).
  rewrite (bind_Done _ _ _ _ _ (prim_Done _ _)).
  fold out. destruct out as [[data' n] w'] eqn:Hout. simpl in data, Hn. subst data.
  cbn [fst snd].
  rewrite (bind_Done _ _ _ _ _ (store_bytes_Done _ _ _ Hfit)).
  destruct (Z.eqb_spec n 0) as [|_]; [done|].
  erewrite bind_Done; [reflexivity|].
  apply store_byte_Done.
  rewrite length_app, length_drop. lia.
Qed.

(** The buffer after a store of [data] at its start. *)
Lemma stored_length (buf data : list Z) :
  (length data ≤ length buf)%nat →
  length (data ++ drop (length data) buf) = length buf.
Proof. intros Hle. rewrite length_app, length_drop. lia. Qed.

Lemma stored_beyond (buf data : list Z) (i : nat) :
  (length data ≤ i)%nat →
  (data ++ drop (length data) buf) !! i = buf !! i.
Proof.
  intros Hle. rewrite lookup_app_r by done. rewrite lookup_drop. f_equal. lia.
Qed.

Lemma well_formed_inv h :
  well_formed h →
  ∃ b, backend_of (file h) = Some b ∧ type h = kind_of b
     ∧ seek h = Some b ∧ tell h = Some b ∧ size h = Some b ∧ getstring h = Some b.
Proof. intros (b & Hb & Hh). exists b. rewrite Hh at 2 3 4 5 6. by repeat split. Qed.

(** What [File_SDLGetString] does, for [1 <= num] and a buffer of at least
    [num] bytes: it asks the primitive read for [num - 1] elements of one
    byte.  When the read returns 0 it reports no string, after [lasterror]
    was refreshed.  When the read returns anything else, also less than
    [num - 1], it stores the terminator at index [num - 1] and returns the
    buffer; the heap, and [lasterror] with it, is as before. *)
Theorem GetString_fails_only_on_empty_read s p h rw str num :
  mem s !! p = Some (HandleCell h) →
  file h = RWRes rw →
  lasterror_ok (mem s) h →
  SDL_RWread_bounded →
  1 <= num <= INT_MAX →
  num <= Z.of_nat (length str) →
  let out := SDL_RWread rw 1 (num - 1) (env s) in
  let n := snd (fst out) in
  let str1 := fst (fst out) ++ drop (length (fst (fst out))) str in
  (n = 0 →
   ∃ s', File_SDLGetString p str num s = Done ((false, str1), s')
       ∧ env s' = snd out ∧ refreshed (mem s) s' p h)
  ∧ (n ≠ 0 →
     File_SDLGetString p str num s
     = Done ((true, <[Z.to_nat (num - 1) := 0]> str1), {| mem := mem s; env := snd out |})
     ∧ <[Z.to_nat (num - 1) := 0]> str1 !! Z.to_nat (num - 1) = Some 0).
Proof.
  intros Hp Hf Hok Hread Hnum Hcap out n str1.
  pose proof (Hread rw 1 (num - 1) (env s)) as Hlen. fold out in Hlen.
  assert (Hfit : (length (fst (fst out)) ≤ length str)%nat) by lia.
  pose proof (to_size_t_count model num Hnum) as Hcount.
  split.
  - intros Hn.
    pose proof (File_SDLGetString_empty s p h rw str num Hp Hf Hok) as Hrun.
    rewrite Hcount in Hrun. by apply Hrun.
  - intros Hn. split.
    + pose proof (File_SDLGetString_some s p h rw str num Hp Hf) as Hrun.
      rewrite Hcount in Hrun. apply Hrun; [done | done | lia].
    + apply list_lookup_insert_eq. subst str1. rewrite stored_length by done. lia.
Qed.

(** C5. For [1 <= num], on a buffer of at least [num] bytes and a
    well-formed handle of either backend, the bound [getstring] returns,
    leaves every byte at an index [>= num] as it was, and when it returns
    the buffer there is a zero byte at an index below [num]. *)
Theorem GetString_stays_in_bounds s p h str num :
  mem s !! p = Some (HandleCell h) →
  well_formed h →
  lasterror_ok (mem s) h →
  SDL_RWread_bounded →
  fgets_bounded →
  1 <= num <= INT_MAX →
  num <= Z.of_nat (length str) →
  ∃ ok str' s',
    handle_getstring p str num s = Done ((ok, str'), s')
    ∧ length str' = length str
    ∧ (∀ i, (Z.to_nat num ≤ i)%nat → str' !! i = str !! i)
    ∧ (ok = true → ∃ i, (i < Z.to_nat num)%nat ∧ str' !! i = Some 0).
Proof.
  intros Hp Hwf Hok Hread Hgets Hnum Hcap.
  destruct (well_formed_inv h Hwf) as (b & Hres & _ & _ & _ & _ & Hslot).
  unfold handle_getstring.
  rewrite (bind_Done _ _ _ _ _ (load_handle_Done _ _ _ Hp)). rewrite Hslot.
  destruct (file h) as [|f|rw] eqn:Hf; simpl in Hres; [done| |];
    injection Hres as <-; cbn [call].
  - (* fgets *)
    unfold File_StandardGetString.
    rewrite (bind_Done _ _ _ _ _ (load_handle_Done _ _ _ Hp)). rewrite Hf.
    rewrite (bind_Done _ _ _ _ _ (as_FILE_Done _ _)).
    rewrite (bind_Done _ _ _ _ _ (prim_Done _ _)).
    destruct (Hgets f num (env s)) as [Hlen Hterm]; [lia|].
    destruct (fgets f num (env s)) as [[ok data] w']. cbn [fst snd] in *.
    assert (Hfit : (length data ≤ length str)%nat) by lia.
    rewrite (bind_Done _ _ _ _ _ (store_bytes_Done _ _ _ Hfit)).
    eexists _, _, _. split; [reflexivity|]. split; [by apply stored_length|]. split.
    + intros i Hi. apply stored_beyond. lia.
    + intros Hret. destruct (Hterm Hret) as [chars ->].
      rewrite length_app in Hlen. simpl in Hlen.
      exists (length chars). split; [lia|].
      rewrite <- app_assoc. rewrite lookup_app_r by done.
      by rewrite Nat.sub_diag.
  - (* SDL_RWread *)
    pose proof (Hread rw 1 (num - 1) (env s)) as Hlen.
    pose proof (to_size_t_count model num Hnum) as Hcount.
    set (out := SDL_RWread rw 1 (num - 1) (env s)) in *.
    assert (Hfit : (length (fst (fst out)) ≤ length str)%nat) by lia.
    destruct (decide (snd (fst out) = 0)) as [Hn|Hn].
    + pose proof (File_SDLGetString_empty s p h rw str num Hp Hf Hok) as Hrun.
      rewrite Hcount in Hrun. destruct (Hrun Hfit Hn) as (s' & -> & _).
      eexists _, _, _. split; [reflexivity|]. split; [by apply stored_length|]. split.
      * intros i Hi. apply stored_beyond. fold out. lia.
      * done.
    + pose proof (File_SDLGetString_some s p h rw str num Hp Hf) as Hrun.
      rewrite Hcount in Hrun. rewrite Hrun; [|done|done|lia].
      eexists _, _, _. split; [reflexivity|].
      split; [rewrite length_insert; by apply stored_length|]. split.
      * intros i Hi. rewrite list_lookup_insert_ne by lia.
        apply stored_beyond. fold out. lia.
      * intros _. exists (Z.to_nat (num - 1)). split; [lia|].
        apply list_lookup_insert_eq. rewrite stored_length by done. lia.
Qed.

(** ** GetChar *)

Lemma File_SDLGetChar_byte s p h rw c n w' :
  mem s !! p = Some (HandleCell h) →
  file h = RWRes rw →
  SDL_RWread rw 1 1 (env s) = (([c], n), w') →
  n ≠ 0 →
  File_SDLGetChar p s = Done (char_to_int char_is_signed c, {| mem := mem s; env := w' |}).
Proof.
  intros Hp Hf Hread Hn. unfold File_SDLGetChar.
  rewrite (bind_Done _ _ _ _ _ (load_handle_Done _ _ _ Hp)). rewrite Hf.
  rewrite (bind_Done _ _ _ _ _ (as_RWops_Done _ _)).
  rewrite (bind_Done _ _ _ _ _ (prim_Done _ _)). rewrite Hread. cbn [fst snd length].
  rewrite decide_False by lia.
  by destruct (Z.eqb_spec n 0).
Qed.

(** C8. Where [char] is signed, a primitive read that succeeds (returns 1)
    and stores the byte 0xFF makes [File_SDLGetChar] return [EOF], the value
    it returns when the read gives nothing; the stream is only advanced by
    the read, and [lasterror] is not refreshed. *)
Theorem GetChar_0xFF_is_EOF s p h rw w' :
  mem s !! p = Some (HandleCell h) →
  file h = RWRes rw →
  char_is_signed = true →
  SDL_RWread rw 1 1 (env s) = (([255], 1), w') →
  File_SDLGetChar p s = Done (EOF, {| mem := mem s; env := w' |}).
Proof.
  intros Hp Hf Hsigned Hread.
  rewrite (File_SDLGetChar_byte s p h rw 255 1 w' Hp Hf Hread) by done.
  by rewrite Hsigned.
Qed.

(** ** IsEndOfStream *)

(** Where [long int] represents both results.  On a handle of the SDL
    backend, with [sz] the result of the size primitive and [pos] the
    result of the tell primitive run after it, both values that
    [long int] represents: [File_SDLEOF] returns 1 when the
    size call fails ([sz < 0]), 1 when the tell call fails ([pos = -1]),
    1 when [sz <= pos], and 0 when [pos < sz]. *)
Theorem SDLEOF_compares_tell_with_size s p h rw :
  mem s !! p = Some (HandleCell h) →
  file h = RWRes rw →
  lasterror_ok (mem s) h →
  let sz := fst (SDL_RWsize rw (env s)) in
  let pos := fst (SDL_RWtell rw (snd (SDL_RWsize rw (env s)))) in
  fits_long model sz →
  fits_long model pos →
  ∃ r s', File_SDLEOF p s = Done (r, s')
        ∧ (sz < 0 → r = 1)
        ∧ (0 <= sz → pos = -1 → r = 1)
        ∧ (0 <= sz → pos ≠ -1 → sz <= pos → r = 1)
        ∧ (0 <= sz → pos ≠ -1 → pos < sz → r = 0).
Proof.
  intros Hp Hf Hok sz pos Hsz Hpos. unfold File_SDLEOF.
  rewrite (bind_Done _ _ _ _ _ (load_handle_Done _ _ _ Hp)). rewrite Hf.
  rewrite (bind_Done _ _ _ _ _ (as_RWops_Done _ _)).
  rewrite (bind_Done _ _ _ _ _ (prim_Done _ _)). fold sz.
  rewrite (to_long_id _ _ Hsz).
  destruct (Z.ltb_spec sz 0) as [Hneg|Hnonneg].
  - destruct (File_SDLSetError_spec
                {| mem := mem s; env := snd (SDL_RWsize rw (env s)) |} p h Hp Hok)
      as (s' & Hrun & _).
    rewrite (bind_Done _ _ _ _ _ Hrun).
    exists 1, s'. repeat split; intros; lia.
  - rewrite (bind_Done _ _ _ _ _ (prim_Done _ _)). cbn [env]. fold pos.
    rewrite (to_long_id _ _ Hpos).
    destruct (Z.eqb_spec pos (-1)) as [Hfail|Hgood];
      [|destruct (Z.geb_spec pos sz) as [Hge|Hlt]];
      eexists _, _; (split; [reflexivity|]);
      repeat split; intros; lia.
Qed.

(** ** Size on the Standard backend *)

(** Where the first [ftell] succeeds.  On a handle of the Standard backend
    whose stream is seekable and at a position [t0 >= 0] that [ftell]
    reports, Size returns the position
    [ftell] reports after a seek to the end, leaves the heap alone, and
    Tell after the call returns [t0], as it does before the call. *)
Theorem StandardSize_restores_position s p h f :
  mem s !! p = Some (HandleCell h) →
  file h = StdRes f →
  let t0 := fst (ftell f (env s)) in
  let w_end := snd (fseek f 0 SEEK_END (snd (ftell f (env s)))) in
  seekable f (snd (ftell f w_end)) →
  0 <= t0 →
  fits_long model t0 →
  (∃ s0, File_StandardTell p s = Done (t0, s0))
  ∧ ∃ s', File_StandardSize p s = Done (to_size_t model (fst (ftell f w_end)), s')
        ∧ mem s' = mem s
        ∧ ∃ s'', File_StandardTell p s' = Done (t0, s'').
Proof.
  intros Hp Hf t0 w_end Hseek Hpos Hfits. split.
  - unfold File_StandardTell.
    rewrite (bind_Done _ _ _ _ _ (load_handle_Done _ _ _ Hp)). rewrite Hf.
    rewrite (bind_Done _ _ _ _ _ (as_FILE_Done _ _)).
    rewrite prim_Done. eauto.
  - unfold File_StandardSize, File_StandardSizeImpl.
    rewrite (bind_Done _ _ _ _ _ (load_handle_Done _ _ _ Hp)). rewrite Hf.
    rewrite (bind_Done _ _ _ _ _ (as_FILE_Done _ _)).
    rewrite (bind_Done _ _ _ _ _ (prim_Done _ _)). cbn [mem env].
    rewrite (bind_Done _ _ _ _ _ (prim_Done _ _)). cbn [mem env].
    rewrite (bind_Done _ _ _ _ _ (prim_Done _ _)). cbn [mem env].
    rewrite (bind_Done _ _ _ _ _ (prim_Done _ _)). cbn [mem env].
    fold t0. fold w_end.
    rewrite (long_size_t_long _ _ Hpos Hfits).
    eexists. split; [reflexivity|]. split; [reflexivity|].
    unfold File_StandardTell.
    erewrite bind_Done; [|by apply load_handle_Done]. rewrite Hf.
    rewrite (bind_Done _ _ _ _ _ (as_FILE_Done _ _)).
    rewrite prim_Done. cbn [env].
    rewrite (Hseek _ Hpos Hfits). eauto.
Qed.

(** ** Seek *)

(** The three origins of <stdio.h> go to the three of SDL, which have the
    same values: the SDL backend hands its primitive the origin that the
    Standard backend hands [fseek]. *)
Lemma seek_type_three_way :
  seek_type SEEK_SET = RW_SEEK_SET
  ∧ seek_type SEEK_CUR = RW_SEEK_CUR
  ∧ seek_type SEEK_END = RW_SEEK_END
  ∧ ∀ origin, origin = SEEK_SET ∨ origin = SEEK_CUR ∨ origin = SEEK_END →
              seek_type origin = origin.
Proof. repeat split. intros origin [->|[->| ->]]; reflexivity. Qed.

Lemma File_StandardSeek_spec s p h f offset origin :
  mem s !! p = Some (HandleCell h) →
  file h = StdRes f →
  File_StandardSeek p offset origin s
  = Done (fst (fseek f offset origin (env s)),
          {| mem := mem s; env := snd (fseek f offset origin (env s)) |}).
Proof.
  intros Hp Hf. unfold File_StandardSeek.
  rewrite (bind_Done _ _ _ _ _ (load_handle_Done _ _ _ Hp)). rewrite Hf.
  rewrite (bind_Done _ _ _ _ _ (as_FILE_Done _ _)).
  apply prim_Done.
Qed.

(** For a result that [int] represents, the status is nonzero exactly at
    the failure value -1. *)
Lemma seek_status_within_int (r : Z) :
  - 2 ^ 31 <= r < 2 ^ 31 → (seek_status r ≠ 0 ↔ r = -1).
Proof.
  intros Hr. unfold seek_status, to_int.
  rewrite wrap_signed_id by (unfold int_bits; lia).
  destruct (Z.eqb_spec r (-1)); split; intros; (done || lia).
Qed.

Lemma seek_status_failure : seek_status (-1) = -1.
Proof. reflexivity. Qed.

End Properties.

(** A failed seek (to a negative position) on a handle that already caches
    a string: the old block 2 is released and the new one holds SDL's
    message. *)
Lemma lasterror_follows_every_call_witness :
  let s := Ram.playing (Ram.sdl_handle (Some 2%positive)) "" [65; 66; 67; 68] 1 in
  (mem s !! 1%positive = Some (@HandleCell Ram.platform (Ram.sdl_handle (Some 2%positive)))
   ∧ @file Ram.platform (Ram.sdl_handle (Some 2%positive)) = @RWRes Ram.platform 0%nat
   ∧ @lasterror_ok Ram.platform (mem s) (Ram.sdl_handle (Some 2%positive)))
  ∧ ∃ r s', @File_SDLSeek Ram.platform 1%positive (-9) SEEK_SET s = Done (r, s')
          ∧ env s' = snd (Ram.rwseek 0%nat (-9) (seek_type SEEK_SET) (env s))
          ∧ @recached Ram.platform (mem s) s' 1%positive (Ram.sdl_handle (Some 2%positive)).
Proof.
  intros s.
  assert (H1 : mem s !! 1%positive
               = Some (@HandleCell Ram.platform (Ram.sdl_handle (Some 2%positive))))
    by reflexivity.
  assert (H2 : @file Ram.platform (Ram.sdl_handle (Some 2%positive))
               = @RWRes Ram.platform 0%nat) by reflexivity.
  assert (H3 : @lasterror_ok Ram.platform (mem s) (Ram.sdl_handle (Some 2%positive))).
  { intros old Hold. injection Hold as <-. by eexists. }
  split; [done|].
  exact (proj1 (proj2 (@lasterror_follows_every_call Ram.platform s 1%positive _ _ H1 H2 H3))
           (-9) SEEK_SET).
Defined.

(** * The properties on the platform in memory *)

(** ** The platform keeps the contracts *)

Lemma Ram_read_bounded : @SDL_RWread_bounded Ram.platform.
Proof.
  unfold SDL_RWread_bounded. simpl. intros rw sz count w Hsz Hcount. unfold Ram.read.
  destruct (Ram.streams w !! rw) as [st|]; [|simpl; nia].
  destruct (decide (0 < sz ∧ 0 < count)) as [[Hs Hc]|]; [|simpl; nia].
  cbn [fst]. rewrite length_take.
  assert (0 <= Z.of_nat (length (Ram.rest st)) / sz) by (apply Z.div_pos; lia).
  nia.
Qed.

Lemma Ram_line_length (n : nat) (l : list Z) : (length (Ram.line n l) ≤ n)%nat.
Proof.
  revert l. induction n as [|n IH]; intros [|c l]; simpl; try lia.
  destruct (c =? 10); simpl; [lia|]. specialize (IH l). lia.
Qed.

Lemma Ram_gets_bounded : @fgets_bounded Ram.platform.
Proof.
  unfold fgets_bounded. simpl. intros f num w Hnum. unfold Ram.gets.
  destruct (Ram.streams w !! f) as [st|]; [|simpl; split; [lia|done]].
  rewrite decide_True by done.
  pose proof (Ram_line_length (Z.to_nat (num - 1)) (Ram.rest st)) as Hlen.
  destruct (Ram.line (Z.to_nat (num - 1)) (Ram.rest st)) as [|c chars] eqn:Hline.
  - destruct (decide (num = 1)) as [->|Hne]; cbn [fst snd].
    + split; [simpl; lia | intros _; by exists []].
    + split; [simpl; lia | done].
  - cbn [fst snd]. split; [|by eexists].
    rewrite length_app. simpl in *. lia.
Qed.

Lemma Ram_seekable (st : Ram.stream) (w : Ram.machine) :
  Ram.streams w !! 0%nat = Some st → @seekable Ram.platform 0%nat w.
Proof.
  unfold seekable. simpl. intros Hst pos Hpos _. unfold Ram.seek, Ram.target. rewrite Hst.
  cbn [Z.eqb SEEK_SET]. rewrite decide_True by lia.
  unfold Ram.tell. cbn [fst snd Ram.streams Ram.set_streams].
  rewrite list_lookup_insert_eq by (by eapply lookup_lt_Some).
  reflexivity.
Qed.

(** ** GetLine *)

(** C1. A short read is not a failure of [File_SDLGetString]: on a stream
    of 4 bytes and a buffer of 8, the primitive read returns 4 of the 7
    elements asked for, and the function returns the buffer: the 4 bytes,
    the 3 bytes the caller's buffer held before (88 here), and the
    terminator at index 7.  The heap, [lasterror] with it, is as before. *)
Lemma GetString_short_read_succeeds :
  let s := Ram.playing (Ram.sdl_handle (Some 2%positive)) "" [65; 66; 67; 68] 0 in
  snd (fst (@SDL_RWread Ram.platform 0%nat 1 (8 - 1) (env s))) = 4
  ∧ 4 < 8 - 1
  ∧ ∃ s', @File_SDLGetString Ram.platform 1%positive (replicate 8 88) 8 s
          = Done ((true, [65; 66; 67; 68; 88; 88; 88; 0]), s')
        ∧ mem s' = mem s.
Proof.
  intros s. split; [reflexivity|]. split; [lia|].
  eexists. split; reflexivity.
Qed.

Lemma GetString_fails_only_on_empty_read_witness :
  let h := Ram.sdl_handle (Some 2%positive) in
  let s := Ram.playing h "" [65; 66; 67; 68] 0 in
  let str := replicate 8 88 in
  (mem s !! 1%positive = Some (@HandleCell Ram.platform h)
   ∧ @file Ram.platform h = @RWRes Ram.platform 0%nat
   ∧ @lasterror_ok Ram.platform (mem s) h
   ∧ @SDL_RWread_bounded Ram.platform
   ∧ 1 <= 8 <= INT_MAX
   ∧ 8 <= Z.of_nat (length str))
  ∧ @File_SDLGetString Ram.platform 1%positive str 8 s
    = Done ((true, [65; 66; 67; 68; 88; 88; 88; 0]),
            {| mem := mem s; env := snd (@SDL_RWread Ram.platform 0%nat 1 (8 - 1) (env s)) |}).
Proof.
  intros h s str.
  assert (H1 : mem s !! 1%positive = Some (@HandleCell Ram.platform h)) by reflexivity.
  assert (H2 : @file Ram.platform h = @RWRes Ram.platform 0%nat) by reflexivity.
  assert (H3 : @lasterror_ok Ram.platform (mem s) h).
  { intros old Hold. injection Hold as <-. by eexists. }
  assert (H5 : 1 <= 8 <= INT_MAX) by (unfold INT_MAX, int_bits; lia).
  assert (H6 : 8 <= Z.of_nat (length str)) by (simpl; lia).
  split; [by repeat split; try apply Ram_read_bounded|].
  assert (Hn : snd (fst (@SDL_RWread Ram.platform 0%nat 1 (8 - 1) (env s))) ≠ 0)
    by (vm_compute; discriminate).
  exact (proj1 (proj2 (@GetString_fails_only_on_empty_read Ram.platform s 1%positive h 0%nat
                         str 8 H1 H2 H3 Ram_read_bounded H5 H6) Hn)).
Defined.

Lemma GetString_stays_in_bounds_witness :
  let h := Ram.std_handle in
  let s := Ram.playing h "" [65; 10; 67; 68] 0 in
  let str := replicate 8 88 in
  (mem s !! 1%positive = Some (@HandleCell Ram.platform h)
   ∧ @well_formed Ram.platform h
   ∧ @lasterror_ok Ram.platform (mem s) h
   ∧ @SDL_RWread_bounded Ram.platform
   ∧ @fgets_bounded Ram.platform
   ∧ 1 <= 4 <= INT_MAX
   ∧ 4 <= Z.of_nat (length str))
  ∧ ∃ ok str' s',
      @handle_getstring Ram.platform 1%positive str 4 s = Done ((ok, str'), s')
      ∧ length str' = length str
      ∧ (∀ i, (Z.to_nat 4 ≤ i)%nat → str' !! i = str !! i)
      ∧ (ok = true → ∃ i, (i < Z.to_nat 4)%nat ∧ str' !! i = Some 0).
Proof.
  intros h s str.
  assert (H1 : mem s !! 1%positive = Some (@HandleCell Ram.platform h)) by reflexivity.
  assert (H2 : @well_formed Ram.platform h) by (by exists Standard).
  assert (H3 : @lasterror_ok Ram.platform (mem s) h) by (intros old Hold; discriminate).
  assert (H6 : 1 <= 4 <= INT_MAX) by (unfold INT_MAX, int_bits; lia).
  assert (H7 : 4 <= Z.of_nat (length str)) by (simpl; lia).
  split; [by repeat split; try apply Ram_read_bounded; try apply Ram_gets_bounded|].
  exact (@GetString_stays_in_bounds Ram.platform s 1%positive h str 4
           H1 H2 H3 Ram_read_bounded Ram_gets_bounded H6 H7).
Defined.

(** ** IsEndOfStream, CheckError, Open, GetChar, Size *)

(** One byte of four consumed: not at the end. *)
Lemma SDLEOF_compares_tell_with_size_witness :
  let h := Ram.sdl_handle (Some 2%positive) in
  let s := Ram.playing h "" [65; 66; 67; 68] 1 in
  let sz := fst (@SDL_RWsize Ram.platform 0%nat (env s)) in
  let pos := fst (@SDL_RWtell Ram.platform 0%nat
                    (snd (@SDL_RWsize Ram.platform 0%nat (env s)))) in
  (mem s !! 1%positive = Some (@HandleCell Ram.platform h)
   ∧ @file Ram.platform h = @RWRes Ram.platform 0%nat
   ∧ @lasterror_ok Ram.platform (mem s) h
   ∧ fits_long (@model Ram.platform) sz
   ∧ fits_long (@model Ram.platform) pos)
  ∧ ∃ r s', @File_SDLEOF Ram.platform 1%positive s = Done (r, s')
          ∧ (sz < 0 → r = 1)
          ∧ (0 <= sz → pos = -1 → r = 1)
          ∧ (0 <= sz → pos ≠ -1 → sz <= pos → r = 1)
          ∧ (0 <= sz → pos ≠ -1 → pos < sz → r = 0).
Proof.
  intros h s sz pos.
  assert (H1 : mem s !! 1%positive = Some (@HandleCell Ram.platform h)) by reflexivity.
  assert (H2 : @file Ram.platform h = @RWRes Ram.platform 0%nat) by reflexivity.
  assert (H3 : @lasterror_ok Ram.platform (mem s) h).
  { intros old Hold. injection Hold as <-. by eexists. }
  assert (H4 : fits_long (@model Ram.platform) sz) by (vm_compute; split; discriminate).
  assert (H5 : fits_long (@model Ram.platform) pos) by (vm_compute; split; discriminate).
  split; [done|].
  exact (@SDLEOF_compares_tell_with_size Ram.platform s 1%positive h 0%nat H1 H2 H3 H4 H5).
Defined.

Lemma CheckError_by_kind_witness :
  let h := Ram.std_handle in
  let s := Ram.playing h "" [65; 66; 67; 68] 1 in
  mem s !! 1%positive = Some (@HandleCell Ram.platform h)
  ∧ @File_CheckError Ram.platform 1%positive s
    = Done (@ferror Ram.platform 0%nat (env s), s).
Proof.
  intros h s.
  assert (H1 : mem s !! 1%positive = Some (@HandleCell Ram.platform h)) by reflexivity.
  split; [done|].
  exact (proj1 (@CheckError_by_kind Ram.platform s 1%positive h H1) 0%nat eq_refl eq_refl).
Defined.

(** A path that is not on the disk, opened while the heap holds two other
    blocks. *)
Lemma Open_failure_releases_handle_witness :
  let s := Ram.playing (Ram.sdl_handle (Some 2%positive)) "" [65; 66; 67; 68] 1 in
  ((FILEHANDLE_SDL = FILEHANDLE_STANDARD
    ∧ fst (@fopen Ram.platform "none.bin" "rb" (env s)) = None)
   ∨ (FILEHANDLE_SDL = FILEHANDLE_SDL
      ∧ fst (@SDL_RWFromFile Ram.platform "none.bin" "rb" (env s)) = None))
  ∧ ∃ s', @File_Open Ram.platform "none.bin" "rb" FILEHANDLE_SDL s = Done (None, s')
        ∧ mem s' = mem s
        ∧ env s' = snd (@backend_open Ram.platform "none.bin" "rb" FILEHANDLE_SDL (env s)).
Proof.
  intros s.
  assert (H1 : (FILEHANDLE_SDL = FILEHANDLE_STANDARD
                ∧ fst (@fopen Ram.platform "none.bin" "rb" (env s)) = None)
               ∨ (FILEHANDLE_SDL = FILEHANDLE_SDL
                  ∧ fst (@SDL_RWFromFile Ram.platform "none.bin" "rb" (env s)) = None))
    by (right; split; reflexivity).
  split; [exact H1|].
  exact (@Open_failure_releases_handle Ram.platform "none.bin" "rb" FILEHANDLE_SDL s H1).
Defined.

(** The file holds 0xFF and then 'A': the first GetChar returns [EOF], and
    the stream is not exhausted, for the next one returns 'A'. *)
Lemma GetChar_0xFF_is_EOF_witness :
  let h := Ram.sdl_handle (Some 2%positive) in
  let s := Ram.playing h "" [255; 65] 0 in
  let w' := snd (@SDL_RWread Ram.platform 0%nat 1 1 (env s)) in
  (mem s !! 1%positive = Some (@HandleCell Ram.platform h)
   ∧ @file Ram.platform h = @RWRes Ram.platform 0%nat
   ∧ @char_is_signed Ram.platform = true
   ∧ @SDL_RWread Ram.platform 0%nat 1 1 (env s) = (([255], 1), w'))
  ∧ @File_SDLGetChar Ram.platform 1%positive s = Done (EOF, {| mem := mem s; env := w' |})
  ∧ ∃ s'', @File_SDLGetChar Ram.platform 1%positive {| mem := mem s; env := w' |}
           = Done (65, s'').
Proof.
  intros h s w'.
  assert (H1 : mem s !! 1%positive = Some (@HandleCell Ram.platform h)) by reflexivity.
  assert (H2 : @file Ram.platform h = @RWRes Ram.platform 0%nat) by reflexivity.
  assert (H3 : @char_is_signed Ram.platform = true) by reflexivity.
  assert (H4 : @SDL_RWread Ram.platform 0%nat 1 1 (env s) = (([255], 1), w')) by reflexivity.
  split; [done|]. split.
  - exact (@GetChar_0xFF_is_EOF Ram.platform s 1%positive h 0%nat w' H1 H2 H3 H4).
  - eexists. reflexivity.
Defined.

(** A stream of four bytes at position 1: Size is 4 and Tell stays 1. *)
Lemma StandardSize_restores_position_witness :
  let h := Ram.std_handle in
  let s := Ram.playing h "" [65; 66; 67; 68] 1 in
  let t0 := fst (@ftell Ram.platform 0%nat (env s)) in
  let w_end := snd (@fseek Ram.platform 0%nat 0 SEEK_END
                      (snd (@ftell Ram.platform 0%nat (env s)))) in
  (mem s !! 1%positive = Some (@HandleCell Ram.platform h)
   ∧ @file Ram.platform h = @StdRes Ram.platform 0%nat
   ∧ @seekable Ram.platform 0%nat (snd (@ftell Ram.platform 0%nat w_end))
   ∧ 0 <= t0
   ∧ fits_long (@model Ram.platform) t0)
  ∧ t0 = 1
  ∧ to_size_t (@model Ram.platform) (fst (@ftell Ram.platform 0%nat w_end)) = 4
  ∧ ∃ s', @File_StandardSize Ram.platform 1%positive s = Done (4, s')
        ∧ mem s' = mem s
        ∧ ∃ s'', @File_StandardTell Ram.platform 1%positive s' = Done (1, s'').
Proof.
  intros h s t0 w_end.
  assert (H1 : mem s !! 1%positive = Some (@HandleCell Ram.platform h)) by reflexivity.
  assert (H2 : @file Ram.platform h = @StdRes Ram.platform 0%nat) by reflexivity.
  assert (H3 : @seekable Ram.platform 0%nat (snd (@ftell Ram.platform 0%nat w_end)))
    by (eapply Ram_seekable; reflexivity).
  assert (H4 : 0 <= t0) by (vm_compute; discriminate).
  assert (H5 : fits_long (@model Ram.platform) t0) by (vm_compute; split; discriminate).
  split; [done|]. split; [reflexivity|]. split; [reflexivity|].
  exact (proj2 (@StandardSize_restores_position Ram.platform s 1%positive h 0%nat
                  H1 H2 H3 H4 H5)).
Defined.

(** ** Seek *)

(** C10. A seek from the start to the position 4294967295 that the
    primitive carries out, returning that position and not -1, makes
    [File_SDLSeek] return -1, its value for a failed seek: the conversion
    of the position to [int] gives -1.  One position further the value
    is 0. *)
Theorem SDLSeek_fails_at_position_4294967295 :
  let s := Ram.playing (Ram.sdl_handle (Some 2%positive)) "" [65; 66; 67; 68] 0 in
  fst (@SDL_RWseek Ram.platform 0%nat 4294967295 (seek_type SEEK_SET) (env s)) = 4294967295
  ∧ (∃ s', @File_SDLSeek Ram.platform 1%positive 4294967295 SEEK_SET s = Done (-1, s')
         ∧ @SDL_RWtell Ram.platform 0%nat (env s') = (4294967295, env s'))
  ∧ (∃ s', @File_SDLSeek Ram.platform 1%positive 4294967296 SEEK_SET s = Done (0, s')).
Proof.
  intros s. split; [reflexivity|].
  set (h := Ram.sdl_handle (Some 2%positive)).
  assert (H1 : mem s !! 1%positive = Some (@HandleCell Ram.platform h)) by reflexivity.
  assert (H2 : @file Ram.platform h = @RWRes Ram.platform 0%nat) by reflexivity.
  assert (H3 : @lasterror_ok Ram.platform (mem s) h).
  { intros old Hold. injection Hold as <-. by eexists. }
  split.
  - destruct (@File_SDLSeek_spec Ram.platform s 1%positive h 0%nat 4294967295 SEEK_SET
                H1 H2 H3) as (s' & Hrun & Henv & _).
    exists s'. split; [exact Hrun|]. rewrite Henv. reflexivity.
  - destruct (@File_SDLSeek_spec Ram.platform s 1%positive h 0%nat 4294967296 SEEK_SET
                H1 H2 H3) as (s' & Hrun & _).
    exists s'. exact Hrun.
Qed.

(** * The life of a handle *)

Section Lifecycle.
Context `{PF : Platform}.



(** All nine entry points of a well-formed handle belong to the backend of
    its resource. *)
Lemma well_formed_slots h :
  well_formed h →
  ∃ b, backend_of (file h) = Some b
     ∧ read h = Some b ∧ seek h = Some b ∧ tell h = Some b ∧ size h = Some b
     ∧ getchar h = Some b ∧ getstring h = Some b
     ∧ close h = Some b ∧ error h = Some b ∧ eof h = Some b.
Proof.
  intros (b & Hb & Hh). exists b. split; [exact Hb|].
  rewrite Hh. by repeat split.
Qed.

Lemma handle_inv_live s p h : handle_inv s p h → mem s !! p = Some (HandleCell h).
Proof. by intros (? & _). Qed.





(** ** The Standard backend leaves the heap alone *)

Section StandardCalls.
Variables (s : state) (p : loc) (h : filehandle_t) (f : FILE).
Hypothesis Hp : mem s !! p = Some (HandleCell h).
Hypothesis Hf : file h = StdRes f.

Ltac enter :=
  rewrite (bind_Done _ _ _ _ _ (load_handle_Done _ _ _ Hp)); rewrite Hf;
  rewrite (bind_Done _ _ _ _ _ (as_FILE_Done _ _)).

Lemma File_StandardRead_heap ptr sz count :
  fread_bounded → 0 <= sz → 0 <= count → sz * count <= Z.of_nat (length ptr) →
  ∃ r s', File_StandardRead p ptr sz count s = Done (r, s') ∧ mem s' = mem s.
Proof.
  intros Hread Hsz Hcount Hcap. unfold File_StandardRead. enter.
  rewrite (bind_Done _ _ _ _ _ (prim_Done _ _)).
  pose proof (Hread f sz count (env s) Hsz Hcount) as Hlen.
  destruct (fread f sz count (env s)) as [[data n] w']. cbn [fst snd] in *.
  erewrite bind_Done; [|apply store_bytes_Done; lia].
  by eexists _, _.
Qed.

Lemma File_StandardSeek_heap offset origin :
  ∃ r s', File_StandardSeek p offset origin s = Done (r, s') ∧ mem s' = mem s.
Proof. unfold File_StandardSeek. enter. rewrite prim_Done. by eexists _, _. Qed.

Lemma File_StandardTell_heap :
  ∃ r s', File_StandardTell p s = Done (r, s') ∧ mem s' = mem s.
Proof. unfold File_StandardTell. enter. rewrite prim_Done. by eexists _, _. Qed.

Lemma File_StandardSize_heap :
  ∃ r s', File_StandardSize p s = Done (r, s') ∧ mem s' = mem s.
Proof.
  unfold File_StandardSize, File_StandardSizeImpl. enter.
  do 4 (rewrite (bind_Done _ _ _ _ _ (prim_Done _ _)); cbn [mem env]).
  by eexists _, _.
Qed.

Lemma File_StandardGetChar_heap :
  ∃ r s', File_StandardGetChar p s = Done (r, s') ∧ mem s' = mem s.
Proof. unfold File_StandardGetChar. enter. rewrite prim_Done. by eexists _, _. Qed.

Lemma File_StandardGetString_heap str num :
  fgets_bounded → 1 <= num → num <= Z.of_nat (length str) →
  ∃ r s', File_StandardGetString p str num s = Done (r, s') ∧ mem s' = mem s.
Proof.
  intros Hgets Hnum Hcap. unfold File_StandardGetString. enter.
  rewrite (bind_Done _ _ _ _ _ (prim_Done _ _)).
  destruct (Hgets f num (env s) Hnum) as [Hlen _].
  destruct (fgets f num (env s)) as [[ok data] w']. cbn [fst snd] in *.
  erewrite bind_Done; [|apply store_bytes_Done; lia].
  by eexists _, _.
Qed.

Lemma File_StandardEOF_heap :
  ∃ r s', File_StandardEOF p s = Done (r, s') ∧ mem s' = mem s.
Proof. unfold File_StandardEOF. enter. rewrite query_Done. by eexists _, _. Qed.

End StandardCalls.

(** ** The SDL backend touches the cached string only *)

Section SDLCalls.
Variables (s : state) (p : loc) (h : filehandle_t) (rw : SDL_RWops).
Hypothesis Hinv : handle_inv s p h.
Hypothesis Hf : file h = RWRes rw.

Ltac enter :=
  rewrite (bind_Done _ _ _ _ _ (load_handle_Done _ _ _ (handle_inv_live _ _ _ Hinv)));
  rewrite Hf; rewrite (bind_Done _ _ _ _ _ (as_RWops_Done _ _)).










End SDLCalls.

(** ** Any call, any number of calls *)




(** X2. On a handle of the Standard backend no call touches the heap: after
    any calls the heap is the one before them, and [lasterror] with it. *)
Theorem Standard_calls_leave_heap cs s p h f :
  reads_in_bounds → handle_inv s p h → file h = StdRes f → Forall call_ok cs →
  ∃ s', run_calls p cs s = Done (tt, s') ∧ mem s' = mem s.
Proof.
  intros (Hfread & _ & _ & Hgets) Hinv Hf Hcs.
  destruct Hinv as (Hp & Hwf & _).
  destruct (well_formed_slots h Hwf)
    as (b & Hb & Hrd & Hsk & Htl & Hsz & Hgc & Hgs & _ & _ & Heof).
  rewrite Hf in Hb. injection Hb as <-.
  revert s Hp. induction Hcs as [|c cs Hc _ IH]; intros s Hp.
  - by exists s.
  - assert (Hstep : ∃ s1, run_call p c s = Done (tt, s1) ∧ mem s1 = mem s).
    { assert (Hstd : ∀ {A} (m : M A),
                (∃ r s', m s = Done (r, s') ∧ mem s' = mem s) →
                ∃ s1, (m;; ret tt) s = Done (tt, s1) ∧ mem s1 = mem s).
      { intros A m (r & s' & Hrun & Hmem). exists s'.
        by rewrite (bind_Done _ _ _ _ _ Hrun). }
      destruct c; unfold run_call, handle_read, handle_seek, handle_tell, handle_size,
        handle_getchar, handle_getstring, handle_eof; apply Hstd;
        rewrite (bind_Done _ _ _ _ _ (load_handle_Done _ _ _ Hp));
        rewrite ?Hrd, ?Hsk, ?Htl, ?Hsz, ?Hgc, ?Hgs, ?Heof; cbn [call].
      + destruct Hc as (? & ? & ?). by eapply File_StandardRead_heap.
      + by eapply File_StandardSeek_heap.
      + by eapply File_StandardTell_heap.
      + by eapply File_StandardSize_heap.
      + by eapply File_StandardGetChar_heap.
      + destruct Hc as ([? ?] & ?). by eapply File_StandardGetString_heap.
      + by eapply File_StandardEOF_heap. }
    destruct Hstep as (s1 & Hrun & Hmem).
    destruct (IH s1) as (s' & Hrest & Hmem'); [by rewrite Hmem|].
    exists s'. cbn [run_calls]. rewrite (bind_Done _ _ _ _ _ Hrun).
    split; [exact Hrest | congruence].
Qed.

(** ** Open and Close *)

Lemma File_Close_run s p h :
  handle_inv s p h →
  File_Close p s
  = Done (fst (backend_close (file h) (env s)),
          {| mem := others (mem s) p h; env := snd (backend_close (file h) (env s)) |}).
Proof.
  intros (Hp & Hwf & Hok).
  destruct (well_formed_slots h Hwf) as (b & Hb & _ & _ & _ & _ & _ & _ & Hcl & _).
  unfold File_Close.
  rewrite (bind_Done _ _ _ _ _ (load_handle_Done _ _ _ Hp)). rewrite Hcl.
  assert (Hclose : call (Some b) (File_StandardClose (file h)) (File_SDLClose (file h)) s
                   = Done (fst (backend_close (file h) (env s)),
                           {| mem := mem s; env := snd (backend_close (file h) (env s)) |})).
  { destruct (file h) as [|f|rw]; simpl in Hb; [done| |]; injection Hb as <-; cbn [call].
    - unfold File_StandardClose. rewrite (bind_Done _ _ _ _ _ (as_FILE_Done _ _)).
      apply prim_Done.
    - unfold File_SDLClose. rewrite (bind_Done _ _ _ _ _ (as_RWops_Done _ _)).
      apply prim_Done. }
  rewrite (bind_Done _ _ _ _ _ Hclose).
  erewrite bind_Done; [|by apply load_handle_Done].
  unfold others. destruct (lasterror h) as [l|] eqn:Hl.
  - destruct (Hok l Hl) as [bytes Hb'].
    erewrite bind_Done; [|unfold free; cbn [mem]; by rewrite Hb'].
    erewrite bind_Done; [reflexivity|].
    unfold free. cbn [mem env]. rewrite lookup_delete_ne by congruence. by rewrite Hp.
  - erewrite bind_Done; [|reflexivity].
    erewrite bind_Done; [reflexivity|].
    unfold free. cbn [mem env]. by rewrite Hp.
Qed.

(** X3. Close on a handle in use returns the status of the backend's close
    and, whatever that status is, releases the handle record and the
    cached error string: the heap afterwards holds every other block, as
    it was, and nothing else. *)
Theorem Close_releases_handle_and_string s p h :
  handle_inv s p h →
  ∃ s', File_Close p s = Done (fst (backend_close (file h) (env s)), s')
      ∧ env s' = snd (backend_close (file h) (env s))
      ∧ mem s' !! p = None
      ∧ (∀ l, lasterror h = Some l → mem s' !! l = None)
      ∧ ∀ q, q ≠ p → lasterror h ≠ Some q → mem s' !! q = mem s !! q.
Proof.
  intros Hinv. rewrite (File_Close_run s p h Hinv).
  eexists. split; [reflexivity|]. split; [reflexivity|]. cbn [mem]. unfold others.
  split; [apply lookup_delete_eq|]. split.
  - intros l ->. destruct (decide (l = p)) as [->|Hlp]; [apply lookup_delete_eq|].
    rewrite lookup_delete_ne by done. apply lookup_delete_eq.
  - intros q Hqp Hq. rewrite lookup_delete_ne by done.
    destruct (lasterror h) as [l|]; [|done].
    rewrite lookup_delete_ne; [done | congruence].
Qed.

Lemma File_Open_success filename filemode ty s :
  ty = FILEHANDLE_STANDARD ∨ ty = FILEHANDLE_SDL →
  fst (backend_open filename filemode ty (env s)) ≠ NullRes →
  let p := fresh (dom (mem s)) in
  let h := set_file (set_ops (blank ty) (match ty with FILEHANDLE_STANDARD => Standard
                                         | _ => SDL end))
             (fst (backend_open filename filemode ty (env s))) in
  File_Open filename filemode ty s
  = Done (Some p, {| mem := <[p := HandleCell h]> (mem s);
                     env := snd (backend_open filename filemode ty (env s)) |})
  ∧ well_formed h.
Proof.
  intros Hty Hres p h. split.
  - destruct Hty as [-> | ->].
    + rewrite (File_Open_known filename filemode _ Standard) by (left; done).
      fold p. by destruct (fst (backend_open _ _ _ _)).
    + rewrite (File_Open_known filename filemode _ SDL) by (right; done).
      fold p. by destruct (fst (backend_open _ _ _ _)).
  - subst h. destruct Hty as [-> | ->]; unfold backend_open in *.
    + destruct (fopen filename filemode (env s)) as [[f|] w']; [|done].
      by exists Standard.
    + destruct (SDL_RWFromFile filename filemode (env s)) as [[rw|] w']; [|done].
      by exists SDL.
Qed.

(** X4. For the two known kinds, when the backend opens the resource Open
    returns a location that was not live, holding a handle of the kind
    asked for on the resource opened, each of whose nine entry points is
    the one of that kind's backend, with no cached error string; every
    other block of the heap is as before. *)
Theorem Open_success_binds_fresh_handle filename filemode ty s :
  ty = FILEHANDLE_STANDARD ∨ ty = FILEHANDLE_SDL →
  fst (backend_open filename filemode ty (env s)) ≠ NullRes →
  ∃ p h s', File_Open filename filemode ty s = Done (Some p, s')
          ∧ mem s !! p = None
          ∧ handle_inv s' p h
          ∧ type h = ty
          ∧ file h = fst (backend_open filename filemode ty (env s))
          ∧ lasterror h = None
          ∧ others (mem s') p h = mem s
          ∧ env s' = snd (backend_open filename filemode ty (env s))
          ∧ ∀ b, ty = kind_of b →
                 read h = Some b ∧ seek h = Some b ∧ tell h = Some b ∧ size h = Some b
                 ∧ getchar h = Some b ∧ getstring h = Some b
                 ∧ close h = Some b ∧ error h = Some b ∧ eof h = Some b.
Proof.
  intros Hty Hres.
  destruct (File_Open_success filename filemode ty s Hty Hres) as [Hrun Hwf].
  eexists _, _, _. split; [exact Hrun|]. cbn [mem env].
  split; [apply fresh_free|]. split.
  { split; [apply lookup_insert_eq|]. split; [exact Hwf|]. intros old Hold. discriminate. }
  split; [reflexivity|]. split; [reflexivity|]. split; [reflexivity|]. split.
  { unfold others. cbn [lasterror set_file set_ops blank].
    rewrite delete_insert_id; [done | apply fresh_free]. }
  split; [reflexivity|].
  intros b Hb. destruct Hty as [-> | ->]; destruct b; try discriminate; by repeat split.
Qed.


(** ** Values the entry points return *)

Lemma wrap_signed_byte (c : Z) :
  0 <= c < 256 → wrap_signed 8 c = if c <? 128 then c else c - 256.
Proof.
  intros Hc. unfold wrap_signed. change (2 ^ 8) with 256. change (2 ^ (8 - 1)) with 128.
  destruct (Z.ltb_spec c 128).
  - rewrite Z.mod_small; lia.
  - replace (c + 128) with (c - 128 + 1 * 256) by lia.
    rewrite Z_mod_plus_full. rewrite Z.mod_small; lia.
Qed.

(** X6. When the primitive read gives one byte [c], [File_SDLGetChar]
    returns [c] itself where [char] is unsigned and the sign-extended byte
    where it is signed; it leaves heap and [lasterror] alone; and its
    result is [EOF] for exactly one byte: 0xFF under a signed [char]. *)
Theorem GetChar_value s p h rw c n w' :
  mem s !! p = Some (HandleCell h) →
  file h = RWRes rw →
  SDL_RWread rw 1 1 (env s) = (([c], n), w') →
  n ≠ 0 →
  0 <= c < 256 →
  ∃ v, File_SDLGetChar p s = Done (v, {| mem := mem s; env := w' |})
     ∧ (char_is_signed = false → v = c)
     ∧ (char_is_signed = true → v = if c <? 128 then c else c - 256)
     ∧ (v = EOF ↔ char_is_signed = true ∧ c = 255).
Proof.
  intros Hp Hf Hread Hn Hc.
  rewrite (File_SDLGetChar_byte s p h rw c n w' Hp Hf Hread Hn).
  eexists. split; [reflexivity|]. unfold char_to_int, EOF.
  destruct char_is_signed.
  - rewrite (wrap_signed_byte c Hc).
    split; [done|]. split; [done|].
    destruct (Z.ltb_spec c 128); split; try lia; intros [_ ?]; lia.
  - rewrite wrap_unsigned_id by (change (2 ^ 8) with 256; lia).
    split; [done|]. split; [done|]. split; [lia | by intros [? _]].
Qed.

(** X7. When the primitive read gives no element, [File_SDLGetChar]
    returns [EOF] after [lasterror] was refreshed: the field points to a
    block holding SDL's text, the rest of the handle is unchanged. *)
Theorem GetChar_empty_read_is_EOF s p h rw data w' :
  mem s !! p = Some (HandleCell h) →
  file h = RWRes rw →
  lasterror_ok (mem s) h →
  SDL_RWread rw 1 1 (env s) = ((data, 0), w') →
  (length data ≤ 1)%nat →
  ∃ s', File_SDLGetChar p s = Done (EOF, s')
      ∧ env s' = w'
      ∧ refreshed (mem s) s' p h
      ∧ recached (mem s) s' p h.
Proof.
  intros Hp Hf Hok Hread Hlen. unfold File_SDLGetChar.
  rewrite (bind_Done _ _ _ _ _ (load_handle_Done _ _ _ Hp)). rewrite Hf.
  rewrite (bind_Done _ _ _ _ _ (as_RWops_Done _ _)).
  rewrite (bind_Done _ _ _ _ _ (prim_Done _ _)). rewrite Hread. cbn [fst snd].
  rewrite decide_False by lia. cbn [Z.eqb].
  destruct (File_SDLSetError_spec {| mem := mem s; env := w' |} p h Hp Hok)
    as (s' & Hrun & Henv & Href).
  exists s'. rewrite (bind_Done _ _ _ _ _ Hrun).
  split; [reflexivity|]. split; [exact Henv|]. split; [exact Href|].
  by apply refreshed_recached.
Qed.

Lemma File_SDLEOF_negative_size s p h rw :
  mem s !! p = Some (HandleCell h) →
  file h = RWRes rw →
  lasterror_ok (mem s) h →
  to_long model (fst (SDL_RWsize rw (env s))) < 0 →
  ∃ s', File_SDLEOF p s = Done (1, s')
      ∧ env s' = snd (SDL_RWsize rw (env s))
      ∧ refreshed (mem s) s' p h.
Proof.
  intros Hp Hf Hok Hsize. unfold File_SDLEOF.
  rewrite (bind_Done _ _ _ _ _ (load_handle_Done _ _ _ Hp)). rewrite Hf.
  rewrite (bind_Done _ _ _ _ _ (as_RWops_Done _ _)).
  rewrite (bind_Done _ _ _ _ _ (prim_Done _ _)).
  destruct (Z.ltb_spec (to_long model (fst (SDL_RWsize rw (env s)))) 0); [|lia].
  destruct (File_SDLSetError_spec
              {| mem := mem s; env := snd (SDL_RWsize rw (env s)) |} p h Hp Hok)
    as (s' & Hrun & Henv & Href).
  exists s'. by rewrite (bind_Done _ _ _ _ _ Hrun).
Qed.

Lemma File_SDLEOF_size_known s p h rw :
  mem s !! p = Some (HandleCell h) →
  file h = RWRes rw →
  0 <= to_long model (fst (SDL_RWsize rw (env s))) →
  ∃ v, File_SDLEOF p s
       = Done (v, {| mem := mem s;
                     env := snd (SDL_RWtell rw (snd (SDL_RWsize rw (env s)))) |}).
Proof.
  intros Hp Hf Hsize. unfold File_SDLEOF.
  rewrite (bind_Done _ _ _ _ _ (load_handle_Done _ _ _ Hp)). rewrite Hf.
  rewrite (bind_Done _ _ _ _ _ (as_RWops_Done _ _)).
  rewrite (bind_Done _ _ _ _ _ (prim_Done _ _)).
  destruct (Z.ltb_spec (to_long model (fst (SDL_RWsize rw (env s)))) 0); [lia|].
  rewrite (bind_Done _ _ _ _ _ (prim_Done _ _)). cbn [mem env].
  destruct (_ =? -1); [|destruct (_ >=? _)]; by eexists.
Qed.

(** X8. [File_SDLEOF] refreshes [lasterror] exactly when the result of the
    size primitive, converted to [long int], is negative, and then returns
    1; when the converted size is not negative it leaves heap and
    [lasterror] as they are, also when the tell primitive fails.  For a
    result that [long int] represents the converted size is negative
    exactly when the primitive's result is, that is when it failed. *)
Theorem SDLEOF_refreshes_on_negative_long_size s p h rw :
  mem s !! p = Some (HandleCell h) →
  file h = RWRes rw →
  lasterror_ok (mem s) h →
  let r := fst (SDL_RWsize rw (env s)) in
  let filesize := to_long model r in
  let w1 := snd (SDL_RWsize rw (env s)) in
  (filesize < 0 →
   ∃ s', File_SDLEOF p s = Done (1, s') ∧ env s' = w1 ∧ recached (mem s) s' p h)
  ∧ (0 <= filesize →
     ∃ v, File_SDLEOF p s = Done (v, {| mem := mem s; env := snd (SDL_RWtell rw w1) |}))
  ∧ (fits_long model r → (filesize < 0 ↔ r < 0)).
Proof.
  intros Hp Hf Hok r filesize w1. split; [|split].
  - intros Hsize.
    destruct (File_SDLEOF_negative_size s p h rw Hp Hf Hok Hsize)
      as (s' & Hrun & Henv & Href).
    exists s'. split; [exact Hrun|]. split; [exact Henv|]. by apply refreshed_recached.
  - intros Hsize. by apply (File_SDLEOF_size_known s p h rw).
  - intros Hfits. unfold filesize. by rewrite (to_long_id _ _ Hfits).
Qed.

Lemma to_size_t_range (d : data_model) (z : Z) : 0 <= to_size_t d z <= SIZE_MAX d.
Proof.
  unfold to_size_t, wrap_unsigned, SIZE_MAX.
  assert (0 < 2 ^ size_t_bits d) by (destruct d; reflexivity).
  pose proof (Z.mod_pos_bound z (2 ^ size_t_bits d)). lia.
Qed.

Lemma to_size_t_failure (d : data_model) : to_size_t d (-1) = SIZE_MAX d.
Proof. destruct d; reflexivity. Qed.

Lemma to_size_t_id (d : data_model) (z : Z) : 0 <= z <= SIZE_MAX d → to_size_t d z = z.
Proof. unfold SIZE_MAX. intros Hz. apply wrap_unsigned_id. lia. Qed.

(** Every value of [long int], negative ones too, survives the trip
    through [size_t]. *)
Lemma long_size_t_long_any (d : data_model) (z : Z) :
  fits_long d z → to_long d (to_size_t d z) = z.
Proof.
  unfold fits_long, LONG_MIN, LONG_MAX, to_long, to_size_t, wrap_signed, wrap_unsigned.
  intros Hz. destruct d; simpl in *; Z.div_mod_to_equations; lia.
Qed.

(** X9. [File_SDLSize] never returns a negative number: it returns the
    result of the size primitive when that is a [size_t] value, and
    [SIZE_MAX] when the primitive fails with -1. *)
Theorem SDLSize_failure_is_SIZE_MAX s p h rw :
  mem s !! p = Some (HandleCell h) →
  file h = RWRes rw →
  lasterror_ok (mem s) h →
  let r := fst (SDL_RWsize rw (env s)) in
  ∃ v s', File_SDLSize p s = Done (v, s')
        ∧ 0 <= v <= SIZE_MAX model
        ∧ (0 <= r <= SIZE_MAX model → v = r)
        ∧ (r = -1 → v = SIZE_MAX model).
Proof.
  intros Hp Hf Hok r.
  destruct (File_SDLSize_spec s p h rw Hp Hf Hok) as (s' & Hrun & _).
  eexists _, s'. split; [exact Hrun|]. fold r.
  split; [apply to_size_t_range|]. split.
  - apply to_size_t_id.
  - intros ->. apply to_size_t_failure.
Qed.

(** X10. The size helper of the Standard backend hands its second [fseek]
    exactly what its first [ftell] returned, -1 of a failed [ftell]
    included, and does not look at the result of either [fseek]; a second
    [ftell] that fails with -1 comes back as [SIZE_MAX]. *)
Theorem StandardSize_seeks_back_to_first_tell s p h f :
  mem s !! p = Some (HandleCell h) →
  file h = StdRes f →
  let t0 := fst (ftell f (env s)) in
  let w2 := snd (fseek f 0 SEEK_END (snd (ftell f (env s)))) in
  let len := fst (ftell f w2) in
  fits_long model t0 →
  ∃ v, File_StandardSize p s
       = Done (v, {| mem := mem s; env := snd (fseek f t0 SEEK_SET (snd (ftell f w2))) |})
     ∧ (0 <= len <= SIZE_MAX model → v = len)
     ∧ (len = -1 → v = SIZE_MAX model).
Proof.
  intros Hp Hf t0 w2 len Hfits.
  unfold File_StandardSize, File_StandardSizeImpl.
  rewrite (bind_Done _ _ _ _ _ (load_handle_Done _ _ _ Hp)). rewrite Hf.
  rewrite (bind_Done _ _ _ _ _ (as_FILE_Done _ _)).
  do 4 (rewrite (bind_Done _ _ _ _ _ (prim_Done _ _)); cbn [mem env]).
  fold t0. fold w2. fold len.
  rewrite (long_size_t_long_any _ _ Hfits).
  eexists. split; [reflexivity|]. split.
  - apply to_size_t_id.
  - intros ->. apply to_size_t_failure.
Qed.

(** X11. LastErrorMessage on the SDL backend: NULL on a handle that has
    made no call, and after a Seek, a Tell or a Size the string holding
    the text [SDL_GetError] gave right after that call's primitive. *)
Theorem SDLError_reports_last_call s p h rw :
  mem s !! p = Some (HandleCell h) →
  file h = RWRes rw →
  lasterror_ok (mem s) h →
  (lasterror h = None → File_SDLError p s = Done (None, s))
  ∧ (∀ offset origin,
       ∃ r s' l, File_SDLSeek p offset origin s = Done (r, s')
               ∧ File_SDLError p s' = Done (Some l, s')
               ∧ mem s' !! l
                 = Some (CharCell (c_bytes (SDL_GetError
                      (snd (SDL_RWseek rw offset (seek_type origin) (env s)))) ++ [0])))
  ∧ (∃ r s' l, File_SDLTell p s = Done (r, s')
             ∧ File_SDLError p s' = Done (Some l, s')
             ∧ mem s' !! l
               = Some (CharCell (c_bytes (SDL_GetError
                    (snd (SDL_RWtell rw (env s)))) ++ [0])))
  ∧ (∃ r s' l, File_SDLSize p s = Done (r, s')
             ∧ File_SDLError p s' = Done (Some l, s')
             ∧ mem s' !! l
               = Some (CharCell (c_bytes (SDL_GetError
                    (snd (SDL_RWsize rw (env s)))) ++ [0]))).
Proof.
  intros Hp Hf Hok.
  assert (Herr : ∀ s' w, env s' = w → refreshed (mem s) s' p h →
            ∃ l, File_SDLError p s' = Done (Some l, s')
               ∧ mem s' !! l = Some (CharCell (c_bytes (SDL_GetError w) ++ [0]))).
  { intros s' w <- (l & Hp' & Hl & _). exists l. split; [|exact Hl].
    unfold File_SDLError. by rewrite (bind_Done _ _ _ _ _ (load_handle_Done _ _ _ Hp')). }
  split; [|split; [|split]].
  - intros Hnone. unfold File_SDLError.
    rewrite (bind_Done _ _ _ _ _ (load_handle_Done _ _ _ Hp)). by rewrite Hnone.
  - intros offset origin.
    destruct (File_SDLSeek_spec s p h rw offset origin Hp Hf Hok) as (s' & Hrun & Henv & Href).
    destruct (Herr s' _ Henv Href) as (l & Hget & Hl). by eexists _, s', l.
  - destruct (File_SDLTell_spec s p h rw Hp Hf Hok) as (s' & Hrun & Henv & Href).
    destruct (Herr s' _ Henv Href) as (l & Hget & Hl). by eexists _, s', l.
  - destruct (File_SDLSize_spec s p h rw Hp Hf Hok) as (s' & Hrun & Henv & Href).
    destruct (Herr s' _ Henv Href) as (l & Hget & Hl). by eexists _, s', l.
Qed.

(** X12. Through the bound [read] of either backend, with a destination of
    at least [size * count] bytes: the call returns the count of the
    primitive, and every byte of the destination at an index
    [>= size * count] is as it was. *)
Theorem Read_stays_in_bounds s p h ptr sz count :
  handle_inv s p h →
  fread_bounded →
  SDL_RWread_bounded →
  0 <= sz → 0 <= count →
  sz * count <= Z.of_nat (length ptr) →
  ∃ n ptr' s',
    handle_read p ptr sz count s = Done ((n, ptr'), s')
    ∧ n = match file h with
          | StdRes f => snd (fst (fread f sz count (env s)))
          | RWRes rw => snd (fst (SDL_RWread rw sz count (env s)))
          | NullRes => 0
          end
    ∧ length ptr' = length ptr
    ∧ ∀ i, (Z.to_nat (sz * count) ≤ i)%nat → ptr' !! i = ptr !! i.
Proof.
  intros (Hp & Hwf & Hok) Hfread Hread Hsz Hcount Hcap.
  destruct (well_formed_slots h Hwf) as (b & Hb & Hrd & _).
  unfold handle_read.
  rewrite (bind_Done _ _ _ _ _ (load_handle_Done _ _ _ Hp)). rewrite Hrd.
  destruct (file h) as [|f|rw] eqn:Hf; simpl in Hb; [done| |]; injection Hb as <-;
    cbn [call].
  - unfold File_StandardRead.
    rewrite (bind_Done _ _ _ _ _ (load_handle_Done _ _ _ Hp)). rewrite Hf.
    rewrite (bind_Done _ _ _ _ _ (as_FILE_Done _ _)).
    rewrite (bind_Done _ _ _ _ _ (prim_Done _ _)).
    pose proof (Hfread f sz count (env s) Hsz Hcount) as Hlen.
    destruct (fread f sz count (env s)) as [[data n] w']. cbn [fst snd] in *.
    erewrite bind_Done; [|apply store_bytes_Done; lia].
    eexists _, _, _. split; [reflexivity|]. split; [reflexivity|].
    split; [apply stored_length; lia|].
    intros i Hi. apply stored_beyond. lia.
  - pose proof (Hread rw sz count (env s) Hsz Hcount) as Hlen.
    destruct (File_SDLRead_spec s p h rw ptr sz count Hp Hf Hok) as (s' & Hrun & _);
      [lia|].
    eexists _, _, s'. split; [exact Hrun|]. split; [reflexivity|].
    split; [apply stored_length; lia|].
    intros i Hi. apply stored_beyond. lia.
Qed.


End Lifecycle.

(** * The life of a handle on the platform in memory *)

Lemma Ram_read_delivers : @SDL_RWread_delivers Ram.platform.
Proof.
  unfold SDL_RWread_delivers. simpl. intros rw sz count w Hsz Hcount. unfold Ram.read.
  destruct (Ram.streams w !! rw) as [st|]; [|simpl; lia].
  destruct (decide (0 < sz ∧ 0 < count)) as [[Hs Hc]|]; [|simpl; lia].
  cbn [fst snd]. rewrite length_take.
  assert (0 <= Z.of_nat (length (Ram.rest st)) / sz) by (apply Z.div_pos; lia).
  pose proof (Z.mul_div_le (Z.of_nat (length (Ram.rest st))) sz Hs).
  nia.
Qed.

Lemma Ram_reads_in_bounds : @reads_in_bounds Ram.platform.
Proof.
  split; [exact Ram_read_bounded|]. split; [exact Ram_read_bounded|].
  split; [exact Ram_read_delivers | exact Ram_gets_bounded].
Qed.

Lemma Ram_sdl_in_use (text : string) (bytes : list Z) (pos : Z) :
  @handle_inv Ram.platform (Ram.playing (Ram.sdl_handle (Some 2%positive)) text bytes pos)
    1%positive (Ram.sdl_handle (Some 2%positive)).
Proof.
  split; [reflexivity|]. split; [by exists SDL|].
  intros old Hold. injection Hold as <-. by eexists.
Qed.

Lemma Ram_std_in_use (text : string) (bytes : list Z) (pos : Z) :
  @handle_inv Ram.platform (Ram.playing Ram.std_handle text bytes pos)
    1%positive Ram.std_handle.
Proof.
  split; [reflexivity|]. split; [by exists Standard|].
  intros old Hold. discriminate.
Qed.


Lemma Standard_calls_leave_heap_witness :
  let h := Ram.std_handle in
  let s := Ram.playing h "" [65; 10; 67; 68] 0 in
  let cs := [CallGetString (replicate 8 0) 8; CallGetChar; CallSize;
             CallRead (replicate 4 0) 2 2; CallEOF; CallSeek 0 SEEK_END; CallTell] in
  (@reads_in_bounds Ram.platform
   ∧ @handle_inv Ram.platform s 1%positive h
   ∧ @file Ram.platform h = @StdRes Ram.platform 0%nat
   ∧ Forall call_ok cs)
  ∧ ∃ s', @run_calls Ram.platform 1%positive cs s = Done (tt, s') ∧ mem s' = mem s.
Proof.
  intros h s cs.
  assert (Hcs : Forall call_ok cs).
  { repeat constructor; unfold INT_MAX, int_bits; simpl; lia. }
  split; [split; [exact Ram_reads_in_bounds
                 | split; [apply Ram_std_in_use | split; [reflexivity | exact Hcs]]]|].
  exact (@Standard_calls_leave_heap Ram.platform cs s 1%positive h 0%nat
           Ram_reads_in_bounds (Ram_std_in_use _ _ _) eq_refl Hcs).
Defined.

(** Close of a handle that caches a string: blocks 1 and 2 are gone. *)
Lemma Close_releases_handle_and_string_witness :
  let h := Ram.sdl_handle (Some 2%positive) in
  let s := Ram.playing h "" [65; 66; 67; 68] 0 in
  @handle_inv Ram.platform s 1%positive h
  ∧ ∃ s', @File_Close Ram.platform 1%positive s
          = Done (fst (@backend_close Ram.platform (@file Ram.platform h) (env s)), s')
        ∧ env s' = snd (@backend_close Ram.platform (@file Ram.platform h) (env s))
        ∧ mem s' !! 1%positive = None
        ∧ (∀ l, @lasterror Ram.platform h = Some l → mem s' !! l = None)
        ∧ ∀ q, q ≠ 1%positive → @lasterror Ram.platform h ≠ Some q →
               mem s' !! q = mem s !! q.
Proof.
  intros h s. split; [apply Ram_sdl_in_use|].
  exact (@Close_releases_handle_and_string Ram.platform s 1%positive h (Ram_sdl_in_use _ _ _)).
Defined.

Lemma Open_success_binds_fresh_handle_witness :
  (FILEHANDLE_SDL = FILEHANDLE_STANDARD ∨ FILEHANDLE_SDL = FILEHANDLE_SDL)
  ∧ fst (@backend_open Ram.platform "t.bin" "rb" FILEHANDLE_SDL (env Ram.boot))
    ≠ @NullRes Ram.platform
  ∧ ∃ p h s', @File_Open Ram.platform "t.bin" "rb" FILEHANDLE_SDL Ram.boot = Done (Some p, s')
            ∧ mem Ram.boot !! p = None
            ∧ @handle_inv Ram.platform s' p h
            ∧ @type Ram.platform h = FILEHANDLE_SDL
            ∧ @file Ram.platform h
              = fst (@backend_open Ram.platform "t.bin" "rb" FILEHANDLE_SDL (env Ram.boot))
            ∧ @lasterror Ram.platform h = None
            ∧ @others Ram.platform (mem s') p h = mem Ram.boot
            ∧ env s' = snd (@backend_open Ram.platform "t.bin" "rb" FILEHANDLE_SDL
                              (env Ram.boot))
            ∧ ∀ b, FILEHANDLE_SDL = kind_of b →
                   @read Ram.platform h = Some b ∧ @seek Ram.platform h = Some b
                   ∧ @tell Ram.platform h = Some b ∧ @size Ram.platform h = Some b
                   ∧ @getchar Ram.platform h = Some b ∧ @getstring Ram.platform h = Some b
                   ∧ @close Ram.platform h = Some b ∧ @error Ram.platform h = Some b
                   ∧ @eof Ram.platform h = Some b.
Proof.
  assert (H1 : FILEHANDLE_SDL = FILEHANDLE_STANDARD ∨ FILEHANDLE_SDL = FILEHANDLE_SDL)
    by (right; reflexivity).
  assert (H2 : fst (@backend_open Ram.platform "t.bin" "rb" FILEHANDLE_SDL (env Ram.boot))
               ≠ @NullRes Ram.platform) by discriminate.
  split; [exact H1|]. split; [exact H2|].
  exact (@Open_success_binds_fresh_handle Ram.platform "t.bin" "rb" FILEHANDLE_SDL Ram.boot
           H1 H2).
Defined.


(** The byte 200 comes back as -56 under the signed [char] of the
    platform. *)
Lemma GetChar_value_witness :
  let h := Ram.sdl_handle (Some 2%positive) in
  let s := Ram.playing h "" [200; 65] 0 in
  let w' := snd (@SDL_RWread Ram.platform 0%nat 1 1 (env s)) in
  (mem s !! 1%positive = Some (@HandleCell Ram.platform h)
   ∧ @file Ram.platform h = @RWRes Ram.platform 0%nat
   ∧ @SDL_RWread Ram.platform 0%nat 1 1 (env s) = (([200], 1), w')
   ∧ 1 ≠ 0
   ∧ 0 <= 200 < 256)
  ∧ ∃ v, @File_SDLGetChar Ram.platform 1%positive s = Done (v, {| mem := mem s; env := w' |})
       ∧ (@char_is_signed Ram.platform = false → v = 200)
       ∧ (@char_is_signed Ram.platform = true → v = if 200 <? 128 then 200 else 200 - 256)
       ∧ (v = EOF ↔ @char_is_signed Ram.platform = true ∧ 200 = 255).
Proof.
  intros h s w'.
  assert (H1 : mem s !! 1%positive = Some (@HandleCell Ram.platform h)) by reflexivity.
  assert (H2 : @file Ram.platform h = @RWRes Ram.platform 0%nat) by reflexivity.
  assert (H3 : @SDL_RWread Ram.platform 0%nat 1 1 (env s) = (([200], 1), w')) by reflexivity.
  assert (H4 : 1 ≠ 0) by lia.
  assert (H5 : 0 <= 200 < 256) by lia.
  split; [done|].
  exact (@GetChar_value Ram.platform s 1%positive h 0%nat 200 1 w' H1 H2 H3 H4 H5).
Defined.

(** At the end of a file of one byte. *)
Lemma GetChar_empty_read_is_EOF_witness :
  let h := Ram.sdl_handle (Some 2%positive) in
  let s := Ram.playing h "" [65] 1 in
  let w' := snd (@SDL_RWread Ram.platform 0%nat 1 1 (env s)) in
  (mem s !! 1%positive = Some (@HandleCell Ram.platform h)
   ∧ @file Ram.platform h = @RWRes Ram.platform 0%nat
   ∧ @lasterror_ok Ram.platform (mem s) h
   ∧ @SDL_RWread Ram.platform 0%nat 1 1 (env s) = (([], 0), w')
   ∧ (length (@nil Z) ≤ 1)%nat)
  ∧ ∃ s', @File_SDLGetChar Ram.platform 1%positive s = Done (EOF, s')
        ∧ env s' = w'
        ∧ @refreshed Ram.platform (mem s) s' 1%positive h
        ∧ @recached Ram.platform (mem s) s' 1%positive h.
Proof.
  intros h s w'.
  assert (H1 : mem s !! 1%positive = Some (@HandleCell Ram.platform h)) by reflexivity.
  assert (H2 : @file Ram.platform h = @RWRes Ram.platform 0%nat) by reflexivity.
  assert (H3 : @lasterror_ok Ram.platform (mem s) h) by apply (Ram_sdl_in_use "" [65] 1).
  assert (H4 : @SDL_RWread Ram.platform 0%nat 1 1 (env s) = (([], 0), w')) by reflexivity.
  assert (H5 : (length (@nil Z) ≤ 1)%nat) by (simpl; lia).
  split; [done|].
  exact (@GetChar_empty_read_is_EOF Ram.platform s 1%positive h 0%nat [] w' H1 H2 H3 H4 H5).
Defined.

(** A file of 2 GiB where [long int] has 32 bits: the size primitive
    succeeds, the converted size is negative, and [lasterror] is
    refreshed. *)
Lemma SDLEOF_refreshes_on_negative_long_size_witness :
  let h := Sparse.sdl_handle (Some 2%positive) in
  let s := Sparse.playing h 2147483648 0 in
  let r := fst (@SDL_RWsize Sparse.platform tt (env s)) in
  let filesize := to_long (@model Sparse.platform) r in
  let w1 := snd (@SDL_RWsize Sparse.platform tt (env s)) in
  (mem s !! 1%positive = Some (@HandleCell Sparse.platform h)
   ∧ @file Sparse.platform h = @RWRes Sparse.platform tt
   ∧ @lasterror_ok Sparse.platform (mem s) h
   ∧ filesize < 0)
  ∧ r = 2147483648
  ∧ ∃ s', @File_SDLEOF Sparse.platform 1%positive s = Done (1, s')
        ∧ env s' = w1
        ∧ @recached Sparse.platform (mem s) s' 1%positive h.
Proof.
  intros h s r filesize w1.
  assert (H1 : mem s !! 1%positive = Some (@HandleCell Sparse.platform h)) by reflexivity.
  assert (H2 : @file Sparse.platform h = @RWRes Sparse.platform tt) by reflexivity.
  assert (H3 : @lasterror_ok Sparse.platform (mem s) h).
  { intros old Hold. injection Hold as <-. by eexists. }
  assert (H4 : filesize < 0) by reflexivity.
  split; [done|]. split; [reflexivity|].
  exact (proj1 (@SDLEOF_refreshes_on_negative_long_size Sparse.platform s 1%positive h tt
                  H1 H2 H3) H4).
Defined.

Lemma SDLSize_failure_is_SIZE_MAX_witness :
  let h := @set_file Ram.platform (Ram.sdl_handle (Some 2%positive))
             (@RWRes Ram.platform 5%nat) in
  let s := Ram.playing h "" [65; 66; 67; 68] 0 in
  let r := fst (@SDL_RWsize Ram.platform 5%nat (env s)) in
  (mem s !! 1%positive = Some (@HandleCell Ram.platform h)
   ∧ @file Ram.platform h = @RWRes Ram.platform 5%nat
   ∧ @lasterror_ok Ram.platform (mem s) h)
  ∧ r = -1
  ∧ ∃ v s', @File_SDLSize Ram.platform 1%positive s = Done (v, s')
          ∧ 0 <= v <= SIZE_MAX (@model Ram.platform)
          ∧ (0 <= r <= SIZE_MAX (@model Ram.platform) → v = r)
          ∧ (r = -1 → v = SIZE_MAX (@model Ram.platform)).
Proof.
  intros h s r.
  assert (H1 : mem s !! 1%positive = Some (@HandleCell Ram.platform h)) by reflexivity.
  assert (H2 : @file Ram.platform h = @RWRes Ram.platform 5%nat) by reflexivity.
  assert (H3 : @lasterror_ok Ram.platform (mem s) h).
  { intros old Hold. injection Hold as <-. by eexists. }
  split; [done|]. split; [reflexivity|].
  exact (@SDLSize_failure_is_SIZE_MAX Ram.platform s 1%positive h 5%nat H1 H2 H3).
Defined.

Lemma StandardSize_seeks_back_to_first_tell_witness :
  let h := Ram.std_handle in
  let s := Ram.playing h "" [65; 66; 67; 68] 3 in
  let t0 := fst (@ftell Ram.platform 0%nat (env s)) in
  let w2 := snd (@fseek Ram.platform 0%nat 0 SEEK_END
                   (snd (@ftell Ram.platform 0%nat (env s)))) in
  let len := fst (@ftell Ram.platform 0%nat w2) in
  (mem s !! 1%positive = Some (@HandleCell Ram.platform h)
   ∧ @file Ram.platform h = @StdRes Ram.platform 0%nat
   ∧ fits_long (@model Ram.platform) t0)
  ∧ ∃ v, @File_StandardSize Ram.platform 1%positive s
         = Done (v, {| mem := mem s;
                       env := snd (@fseek Ram.platform 0%nat t0 SEEK_SET
                                     (snd (@ftell Ram.platform 0%nat w2))) |})
       ∧ (0 <= len <= SIZE_MAX (@model Ram.platform) → v = len)
       ∧ (len = -1 → v = SIZE_MAX (@model Ram.platform)).
Proof.
  intros h s t0 w2 len.
  assert (H1 : mem s !! 1%positive = Some (@HandleCell Ram.platform h)) by reflexivity.
  assert (H2 : @file Ram.platform h = @StdRes Ram.platform 0%nat) by reflexivity.
  assert (H3 : fits_long (@model Ram.platform) t0) by (vm_compute; split; discriminate).
  split; [done|].
  exact (@StandardSize_seeks_back_to_first_tell Ram.platform s 1%positive h 0%nat H1 H2 H3).
Defined.

(** A seek to before the start fails; LastErrorMessage then gives SDL's
    text for it. *)
Lemma SDLError_reports_last_call_witness :
  let h := Ram.sdl_handle (Some 2%positive) in
  let s := Ram.playing h "" [65; 66; 67; 68] 0 in
  (mem s !! 1%positive = Some (@HandleCell Ram.platform h)
   ∧ @file Ram.platform h = @RWRes Ram.platform 0%nat
   ∧ @lasterror_ok Ram.platform (mem s) h)
  ∧ @SDL_GetError Ram.platform
      (snd (@SDL_RWseek Ram.platform 0%nat (-9) (seek_type SEEK_SET) (env s)))
    = "Error seeking in datastream"
  ∧ ∃ r s' l, @File_SDLSeek Ram.platform 1%positive (-9) SEEK_SET s = Done (r, s')
            ∧ @File_SDLError Ram.platform 1%positive s' = Done (Some l, s')
            ∧ mem s' !! l
              = Some (@CharCell Ram.platform
                        (c_bytes (@SDL_GetError Ram.platform
                           (snd (@SDL_RWseek Ram.platform 0%nat (-9)
                                   (seek_type SEEK_SET) (env s)))) ++ [0])).
Proof.
  intros h s.
  assert (H1 : mem s !! 1%positive = Some (@HandleCell Ram.platform h)) by reflexivity.
  assert (H2 : @file Ram.platform h = @RWRes Ram.platform 0%nat) by reflexivity.
  assert (H3 : @lasterror_ok Ram.platform (mem s) h) by apply (Ram_sdl_in_use "" _ 0).
  split; [done|]. split; [reflexivity|].
  exact (proj1 (proj2 (@SDLError_reports_last_call Ram.platform s 1%positive h 0%nat
                         H1 H2 H3)) (-9) SEEK_SET).
Defined.

(** Two elements of two bytes into a buffer of six. *)
Lemma Read_stays_in_bounds_witness :
  let h := Ram.std_handle in
  let s := Ram.playing h "" [65; 66; 67; 68; 69] 0 in
  let ptr := replicate 6 88 in
  (@handle_inv Ram.platform s 1%positive h
   ∧ @fread_bounded Ram.platform
   ∧ @SDL_RWread_bounded Ram.platform
   ∧ 0 <= 2 ∧ 0 <= 2
   ∧ 2 * 2 <= Z.of_nat (length ptr))
  ∧ ∃ n ptr' s',
      @handle_read Ram.platform 1%positive ptr 2 2 s = Done ((n, ptr'), s')
      ∧ n = snd (fst (@fread Ram.platform 0%nat 2 2 (env s)))
      ∧ length ptr' = length ptr
      ∧ ∀ i, (Z.to_nat (2 * 2) ≤ i)%nat → ptr' !! i = ptr !! i.
Proof.
  intros h s ptr.
  assert (H4 : 0 <= 2) by lia.
  assert (H6 : 2 * 2 <= Z.of_nat (length ptr)) by (simpl; lia).
  split.
  - split; [apply Ram_std_in_use|]. split; [exact Ram_read_bounded|].
    split; [exact Ram_read_bounded|]. split; [exact H4|]. split; [exact H4 | exact H6].
  - exact (@Read_stays_in_bounds Ram.platform s 1%positive h ptr 2 2
             (Ram_std_in_use _ _ _) Ram_read_bounded Ram_read_bounded H4 H4 H6).
Defined.


(** * Where [long int] has 32 bits *)

(** C2. At the start of a stream of 2 GiB, on a platform whose [long int]
    has 32 bits: the size primitive succeeds with 2147483648, the tell
    primitive succeeds with 0, the position is below the size, and
    [File_SDLEOF] returns 1, end of stream: the size converted to
    [long int] is -2147483648. *)
Theorem SDLEOF_reports_end_at_start_of_2GiB_stream :
  let h := Sparse.sdl_handle (Some 2%positive) in
  let s := Sparse.playing h 2147483648 0 in
  let sz := fst (@SDL_RWsize Sparse.platform tt (env s)) in
  let pos := fst (@SDL_RWtell Sparse.platform tt
                    (snd (@SDL_RWsize Sparse.platform tt (env s)))) in
  sz = 2147483648
  ∧ pos = 0
  ∧ pos < sz
  ∧ to_long (@model Sparse.platform) sz = -2147483648
  ∧ ∃ s', @File_SDLEOF Sparse.platform 1%positive s = Done (1, s').
Proof.
  intros h s sz pos.
  split; [reflexivity|]. split; [reflexivity|]. split; [reflexivity|].
  split; [reflexivity|].
  assert (H1 : mem s !! 1%positive = Some (@HandleCell Sparse.platform h)) by reflexivity.
  assert (H2 : @file Sparse.platform h = @RWRes Sparse.platform tt) by reflexivity.
  assert (H3 : @lasterror_ok Sparse.platform (mem s) h).
  { intros old Hold. injection Hold as <-. by eexists. }
  destruct (@File_SDLEOF_negative_size Sparse.platform s 1%positive h tt H1 H2 H3)
    as (s' & Hrun & _); [reflexivity|].
  by exists s'.
Qed.

(** The size helper run out, whatever the primitives return. *)
Lemma File_StandardSize_run `{PF : Platform} s p h f :
  mem s !! p = Some (HandleCell h) →
  file h = StdRes f →
  let w1 := snd (ftell f (env s)) in
  let w2 := snd (fseek f 0 SEEK_END w1) in
  let cur := to_size_t model (fst (ftell f (env s))) in
  File_StandardSize p s
  = Done (to_size_t model (fst (ftell f w2)),
          {| mem := mem s;
             env := snd (fseek f (to_long model cur) SEEK_SET (snd (ftell f w2))) |}).
Proof.
  intros Hp Hf w1 w2 cur. unfold File_StandardSize, File_StandardSizeImpl.
  rewrite (bind_Done _ _ _ _ _ (load_handle_Done _ _ _ Hp)). rewrite Hf.
  rewrite (bind_Done _ _ _ _ _ (as_FILE_Done _ _)).
  do 4 (rewrite (bind_Done _ _ _ _ _ (prim_Done _ _)); cbn [mem env]).
  reflexivity.
Qed.

(** C9. A stream of 4 bytes positioned at 2147483653, past what a 32-bit
    [long int] represents: the first [ftell] of the size helper fails, so
    Tell before the call returns -1; the helper seeks to the end, hands -1
    to the seek that should restore the position, which fails, and
    returns.  The stream is left at position 4, the end, and Tell after
    the call returns 4. *)
Theorem StandardSize_leaves_stream_at_end :
  let h := Sparse.std_handle in
  let s := Sparse.playing h 4 2147483653 in
  Sparse.offset (env s) = 2147483653
  ∧ (∃ s0, @File_StandardTell Sparse.platform 1%positive s = Done (-1, s0))
  ∧ ∃ s', @File_StandardSize Sparse.platform 1%positive s = Done (4, s')
        ∧ Sparse.offset (env s') = 4
        ∧ ∃ s'', @File_StandardTell Sparse.platform 1%positive s' = Done (4, s'').
Proof.
  intros h s. split; [reflexivity|]. split.
  - eexists. reflexivity.
  - assert (H1 : mem s !! 1%positive = Some (@HandleCell Sparse.platform h)) by reflexivity.
    assert (H2 : @file Sparse.platform h = @StdRes Sparse.platform tt) by reflexivity.
    eexists. split; [exact (@File_StandardSize_run Sparse.platform s 1%positive h tt H1 H2)|].
    split; [reflexivity|].
    eexists. reflexivity.
Qed.

(** The same short read through the Standard backend: [fgets] puts the
    terminator right after the 4 bytes it read. *)
Lemma StandardGetString_terminates_after_data :
  let s := Ram.playing Ram.std_handle "" [65; 66; 67; 68] 0 in
  ∃ s', @File_StandardGetString Ram.platform 1%positive (replicate 8 88) 8 s
        = Done ((true, [65; 66; 67; 68; 0; 88; 88; 88]), s').
Proof. intros s. eexists. reflexivity. Qed.
